(** * PriceRobot: a shallow embedding of [robot.py]

    The development follows the source file top-down: the price extractor
    (a small regular-expression matcher, [float()] on IEEE binary64 and the
    rate table), the analyzer, the web robot's fetch / fan-in pipeline and
    the Flask task registry.

    Python [str] values are sequences of Unicode code points ([list Z]);
    Python [float] values are IEEE 754 binary64 numbers ([spec_float] with
    precision 53 and maximal exponent 1024). *)

From Stdlib Require Import ZArith Lia List Bool Ascii String.
From Stdlib Require Import Floats.SpecFloat.
From Stdlib Require Import DecimalString DecimalZ.
From stdpp Require Import base option list gmap strings.

Local Open Scope Z_scope.

(* ===================================================================== *)
(** * Python values                                                       *)
(* ===================================================================== *)

(** A Python [str]: the sequence of its code points. *)
Abbreviation pystr := (list Z).

(** The code points of an ASCII literal. *)
Definition cps (s : string) : pystr :=
  map (fun a => Z.of_N (N_of_ascii a)) (list_ascii_of_string s).

(** Exceptions (all of them subclasses of [Exception]). *)
Inductive exn :=
| ValueError                 (* float() on a literal it cannot parse *)
| RuntimeFault (msg : pystr) (* raised by a collaborator: aiohttp, bs4, pandas *)
| TemplateNotFound (name : pystr) (* Jinja: no template of that name *).

(** [str(e)] *)
Definition str_exn (e : exn) : pystr :=
  match e with
  | ValueError => cps "could not convert string to float"
  | RuntimeFault msg => msg
  | TemplateNotFound name => name
  end.

(** The outcome of a Python call: a value, or a raised exception. *)
Inductive result (A : Type) :=
| Value (a : A)
| Raise (e : exn).
Arguments Value {A} a.
Arguments Raise {A} e.

(** Sequencing: an exception raised by the first call skips the rest. *)
#[global] Instance result_bind : MBind result := fun A B k r =>
  match r with
  | Value a => k a
  | Raise e => Raise e
  end.

(** ** Unicode character classes

    [\d] and [float()] both use the Unicode decimal digits (category Nd):
    runs of ten consecutive code points, listed here by their digit zero
    (Unicode 14, the table of CPython 3.11). *)
Definition Nd_zeros : list Z :=
  [48; 1632; 1776; 1984; 2406; 2534; 2662; 2790; 2918; 3046; 3174; 3302;
   3430; 3558; 3664; 3792; 3872; 4160; 4240; 6112; 6160; 6470; 6608; 6784;
   6800; 6992; 7088; 7232; 7248; 42528; 43216; 43264; 43472; 43504; 43600;
   44016; 65296; 66720; 68912; 69734; 69872; 69942; 70096; 70384; 70736;
   70864; 71248; 71360; 71472; 71904; 72016; 72784; 73040; 73120; 92768;
   92864; 93008; 120782; 120792; 120802; 120812; 120822; 123200; 123632;
   125264; 130032].

(** [unicodedata.decimal(c)], when [c] is a decimal digit. *)
Fixpoint decimal_in (zeros : list Z) (c : Z) : option Z :=
  match zeros with
  | [] => None
  | z :: zeros' =>
      if (z <=? c) && (c <? z + 10) then Some (c - z) else decimal_in zeros' c
  end.

Definition decimal_value (c : Z) : option Z := decimal_in Nd_zeros c.

(** [c.isdecimal()], the class [\d]. *)
Definition is_decimal (c : Z) : bool :=
  match decimal_value c with Some _ => true | None => false end.

(** [c.isspace()], the class [\s]. *)
Definition is_space (c : Z) : bool :=
  ((9 <=? c) && (c <=? 13)) || ((28 <=? c) && (c <=? 32))
  || (c =? 133) || (c =? 160) || (c =? 5760)
  || ((8192 <=? c) && (c <=? 8202))
  || (c =? 8232) || (c =? 8233) || (c =? 8239) || (c =? 8287) || (c =? 12288).

(** ** Floats *)

Abbreviation float := spec_float.

Definition prec : Z := 53.
Definition emax : Z := 1024.

(** The binary64 number nearest to an integer (what [float] makes of an
    [int] and of a string of digits). *)
Definition float_of_Z (n : Z) : float := binary_normalize prec emax n 0 false.

Definition float_mul : float -> float -> float := SFmul prec emax.
Definition float_add : float -> float -> float := SFadd prec emax.
Definition float_div : float -> float -> float := SFdiv prec emax.
Definition float_leb : float -> float -> bool := SFleb.

Definition is_nan (x : float) : bool :=
  match x with S754_nan => true | _ => false end.

(** [0 <= x] on floats (false on NaN). *)
Definition float_nonneg (x : float) : bool := float_leb (S754_zero false) x.

(** A Python number: an [int] or a [float]. *)
Inductive pynum :=
| PInt (n : Z)
| PFloat (x : float).

(** [x * r] for a float [x]: an int operand is converted first. *)
Definition float_mul_num (x : float) (r : pynum) : float :=
  match r with
  | PInt n => float_mul x (float_of_Z n)
  | PFloat y => float_mul x y
  end.

(** The value of a string of decimal digits, most significant first. *)
Fixpoint digits_value (acc : Z) (s : pystr) : option Z :=
  match s with
  | [] => Some acc
  | c :: s' =>
      match decimal_value c with
      | Some d => digits_value (10 * acc + d) s'
      | None => None
      end
  end.

(** [float(s)] on the strings [extract] passes to it: what is left of a
    [[\d,]+] match once the commas are gone, that is decimal digits only
    (see [replace_comma_digits]).  The empty string is refused with
    [ValueError]; a string of digits denotes the nearest binary64 number. *)
Definition py_float (s : pystr) : result float :=
  match s with
  | [] => Raise ValueError
  | _ =>
      match digits_value 0 s with
      | Some n => Value (float_of_Z n)
      | None => Raise ValueError
      end
  end.

(* ===================================================================== *)
(** * Regular expressions                                                 *)
(* ===================================================================== *)

(** The fragment of [re] syntax the patterns of [extract] are written in:
    single-character sets, with the greedy quantifiers [?] and [+], and one
    capturing group. *)
Inductive cset :=
| CChar (c : Z)          (* a literal character *)
| CDigit                 (* \d *)
| CSpace                 (* \s *)
| CUnion (a b : cset)    (* [ab] *).

Fixpoint in_cset (cs : cset) (c : Z) : bool :=
  match cs with
  | CChar c' => c =? c'
  | CDigit => is_decimal c
  | CSpace => is_space c
  | CUnion a b => in_cset a c || in_cset b c
  end.

Inductive item :=
| One (cs : cset)        (* x *)
| Opt (cs : cset)        (* x? *)
| Plus (cs : cset)       (* x+ *)
| GroupOpen              (* ( *)
| GroupClose             (* ) *).

Abbreviation regex := (list item).

(** A character consumed while the group is open is pushed on the
    (reversed) capture. *)
Definition push (rec : bool) (c : Z) (acc : pystr) : pystr :=
  if rec then c :: acc else acc.

(** The greedy [x+]: take one more [x] first, and only when the rest of the
    pattern fails after that, continue with [k] from here (backtracking). *)
Fixpoint plus_loop (cs : cset) (rec : bool) (k : pystr -> pystr -> option pystr)
    (s acc : pystr) : option pystr :=
  match s with
  | [] => None
  | c :: s' =>
      if in_cset cs c then
        match plus_loop cs rec k s' (push rec c acc) with
        | Some g => Some g
        | None => k s' (push rec c acc)
        end
      else None
  end.

(** Match the pattern at the head of [s]; on success return group 1. *)
Fixpoint match_here (p : regex) (s : pystr) (rec : bool) (acc : pystr)
    : option pystr :=
  match p with
  | [] => Some (rev acc)
  | GroupOpen :: p' => match_here p' s true []
  | GroupClose :: p' => match_here p' s false acc
  | One cs :: p' =>
      match s with
      | c :: s' =>
          if in_cset cs c then match_here p' s' rec (push rec c acc) else None
      | [] => None
      end
  | Opt cs :: p' =>
      match s with
      | c :: s' =>
          if in_cset cs c then
            match match_here p' s' rec (push rec c acc) with
            | Some g => Some g
            | None => match_here p' s rec acc
            end
          else match_here p' s rec acc
      | [] => match_here p' s rec acc
      end
  | Plus cs :: p' =>
      plus_loop cs rec (fun s' acc' => match_here p' s' rec acc') s acc
  end.

(** [re.search(p, s).group(1)]: the leftmost position where the pattern
    matches. *)
Fixpoint re_search (p : regex) (s : pystr) : option pystr :=
  match match_here p s false [] with
  | Some g => Some g
  | None =>
      match s with
      | [] => None
      | _ :: s' => re_search p s'
      end
  end.

(* ===================================================================== *)
(** * PriceExtractor                                                      *)
(* ===================================================================== *)

Inductive currency := toman | rial | dollar | dirham.

Definition currency_name (c : currency) : pystr :=
  match c with
  | toman => cps "toman"
  | rial => cps "rial"
  | dollar => cps "dollar"
  | dirham => cps "dirham"
  end.

#[global] Instance currency_eq_dec : EqDecision currency.
Proof. solve_decision. Defined.

Record reading := mkReading {
  original : float;
  rd_currency : currency;
  rd_toman : float
}.

(** [str.maketrans(a, b)] and [text.translate(table)] *)
Definition maketrans (a b : pystr) : list (Z * Z) := combine a b.

Fixpoint table_get (tbl : list (Z * Z)) (c : Z) : option Z :=
  match tbl with
  | [] => None
  | (k, v) :: tbl' => if c =? k then Some v else table_get tbl' c
  end.

Definition translate (tbl : list (Z * Z)) (text : pystr) : pystr :=
  map (fun c => match table_get tbl c with Some c' => c' | None => c end) text.

(** The Persian digits U+06F0..U+06F9 and the Arabic-Indic digits
    U+0660..U+0669. *)
Definition persian_arabic_digits : pystr :=
  [1776; 1777; 1778; 1779; 1780; 1781; 1782; 1783; 1784; 1785;
   1632; 1633; 1634; 1635; 1636; 1637; 1638; 1639; 1640; 1641].

Definition digit_table : list (Z * Z) :=
  maketrans persian_arabic_digits (cps "01234567890123456789").

(** [[\d,]] *)
Definition digit_or_comma : cset := CUnion CDigit (CChar 44).

Definition lits (w : pystr) : regex := map (fun c => One (CChar c)) w.

(** The unit tokens: U+062A U+0648 U+0645 U+0627 U+0646 (toman),
    U+0631 U+06CC U+0627 U+0644 (rial), U+062F U+0631 U+0647 U+0645
    (dirham). None of their letters, nor [$], has a case variant, so
    [re.IGNORECASE] does not change what the patterns match. *)
Definition toman_unit : pystr := [1578; 1608; 1605; 1575; 1606].
Definition rial_unit : pystr := [1585; 1740; 1575; 1604].
Definition dirham_unit : pystr := [1583; 1585; 1607; 1605].

(** [([\d,]+)\s?unit] *)
Definition amount_then (unit : pystr) : regex :=
  [GroupOpen; Plus digit_or_comma; GroupClose; Opt CSpace] ++ lits unit.

(** [\$([\d,]+)] *)
Definition dollar_pattern : regex :=
  [One (CChar 36); GroupOpen; Plus digit_or_comma; GroupClose].

(** The dict [patterns], in insertion order (the order of [items()]). *)
Definition patterns : list (currency * list regex) :=
  [(toman, [amount_then toman_unit]);
   (rial, [amount_then rial_unit]);
   (dollar, [dollar_pattern]);
   (dirham, [amount_then dirham_unit])].

(** 0.1, the binary64 number nearest to 1/10. *)
Definition float_0_1 : float := float_div (float_of_Z 1) (float_of_Z 10).

Definition rates (c : currency) : pynum :=
  match c with
  | rial => PFloat float_0_1
  | dollar => PInt 55000
  | dirham => PInt 15000
  | toman => PInt 1
  end.

(** [s.replace(",", "")] *)
Definition replace_comma (s : pystr) : pystr :=
  filter (fun c => c ≠ 44) s.

(** The body of [if m:]. *)
Definition on_match (curr : currency) (g : pystr) : result (option reading) :=
  num ← py_float (replace_comma g);
  Value (Some (mkReading num curr (float_mul_num num (rates curr)))).

(** The inner loop [for pat in pats]: [Some] when the loop body returned
    or raised, [None] when the loop ran to its end. *)
Fixpoint extract_pats (curr : currency) (pats : list regex) (text : pystr)
    : option (result (option reading)) :=
  match pats with
  | [] => None
  | pat :: pats' =>
      match re_search pat text with
      | Some g => Some (on_match curr g)
      | None => extract_pats curr pats' text
      end
  end.

(** The outer loop [for curr, pats in patterns.items()], then
    [return None]. *)
Fixpoint extract_items (items : list (currency * list regex)) (text : pystr)
    : result (option reading) :=
  match items with
  | [] => Value None
  | (curr, pats) :: items' =>
      match extract_pats curr pats text with
      | Some r => r
      | None => extract_items items' text
      end
  end.

Definition extract (text : pystr) : result (option reading) :=
  extract_items patterns (translate digit_table text).

(* ===================================================================== *)
(** * Analyzer                                                            *)
(* ===================================================================== *)

(** The dict a listing becomes in [_fetch_one]. *)
Record product := mkProduct {
  name : pystr;
  price : float;
  original_currency : pystr;
  website : pystr;
  country : pystr;
  url : pystr
}.

(** The dict [Analyzer.run] returns; a key that is not in the dict is
    [None]. *)
Record analysis := mkAnalysis {
  total : Z;
  a_min : option float;
  a_max : option float;
  a_mean : option float;
  a_median : option float
}.

(** The pandas reductions of a float column (no NaN left in it): each is
    NaN on the empty column. *)
Definition series_min (l : list float) : float :=
  match l with
  | [] => S754_nan
  | x :: l' => fold_left (fun m y => if SFltb y m then y else m) l' x
  end.

Definition series_max (l : list float) : float :=
  match l with
  | [] => S754_nan
  | x :: l' => fold_left (fun m y => if SFltb m y then y else m) l' x
  end.

(** The sum of a column is numpy's [add.reduce] on a contiguous float64
    array: the pairwise sum of the array, added to the identity 0.0.

    Fewer than 8 values are added from left to right. From 8 to 128 values
    there are eight running sums, which start as the first eight values
    and take one value each from every further full block of eight; they
    are added up as a tree, and the values after the last full block are
    then added one by one. A longer array is split in two, at the multiple
    of 8 below its middle. *)
Fixpoint add_blocks (blocks : nat) (r a : list float) : list float :=
  match blocks with
  | O => r
  | S blocks' => add_blocks blocks' (zip_with float_add r (take 8 a)) (drop 8 a)
  end.

Definition tree_sum (r : list float) : float :=
  match r with
  | [r0; r1; r2; r3; r4; r5; r6; r7] =>
      float_add (float_add (float_add r0 r1) (float_add r2 r3))
                (float_add (float_add r4 r5) (float_add r6 r7))
  | _ => S754_nan
  end.

Definition block_sum (a : list float) : float :=
  let n := length a in
  let r := add_blocks (n / 8 - 1) (take 8 a) (drop 8 a) in
  fold_left float_add (drop (n - n mod 8) a) (tree_sum r).

(** The recursion halves the array: [fuel] bounds its depth. *)
Fixpoint pairwise_sum_upto (fuel : nat) (a : list float) : float :=
  let n := length a in
  if (n <? 8)%nat then fold_left float_add a (S754_zero false)
  else if (n <=? 128)%nat then block_sum a
  else
    match fuel with
    | O => S754_nan
    | S fuel' =>
        let n2 := (n / 2 - (n / 2) mod 8)%nat in
        float_add (pairwise_sum_upto fuel' (take n2 a))
                  (pairwise_sum_upto fuel' (drop n2 a))
    end.

Definition pairwise_sum (a : list float) : float :=
  pairwise_sum_upto (length a) a.

Definition series_sum (l : list float) : float :=
  float_add (S754_zero false) (pairwise_sum l).

Definition series_mean (l : list float) : float :=
  float_div (series_sum l) (float_of_Z (Z.of_nat (length l))).

Fixpoint insert_sorted (x : float) (l : list float) : list float :=
  match l with
  | [] => [x]
  | y :: l' => if float_leb x y then x :: l else y :: insert_sorted x l'
  end.

Definition sort_floats (l : list float) : list float :=
  fold_right insert_sorted [] l.

(** The middle value, or the mean of the two middle values. *)
Definition series_median (l : list float) : float :=
  let sorted := sort_floats l in
  let n := length sorted in
  match n with
  | O => S754_nan
  | _ =>
      if Nat.even n then
        float_div (float_add (nth (n / 2 - 1) sorted S754_nan)
                             (nth (n / 2) sorted S754_nan))
                  (float_of_Z 2)
      else nth (n / 2) sorted S754_nan
  end.

(** [Analyzer.run]: the prices are floats already, so [to_numeric] leaves
    them as they are, and [dropna] removes the rows whose price is NaN. *)
Definition run (products : list product) : analysis :=
  match products with
  | [] => mkAnalysis 0 None None None None
  | _ =>
      let df := filter (fun x => is_nan x = false) (map price products) in
      mkAnalysis (Z.of_nat (length df))
                 (Some (series_min df)) (Some (series_max df))
                 (Some (series_mean df)) (Some (series_median df))
  end.

(* ===================================================================== *)
(** * WebRobot                                                            *)
(* ===================================================================== *)

(** What the robot cannot compute by itself: the network, the HTML parser
    and the spreadsheet writer. Each call either returns or raises. *)
Record world := mkWorld {
  (** [AsyncScraper.scrape(url)]: the page, or a network error or timeout *)
  scrape : pystr -> result pystr;
  (** [BeautifulSoup(html, "lxml").select(...)]: for each card of the page,
      in document order, its [get_text(" ", strip=True)] *)
  select_cards : pystr -> result (list pystr);
  (** [df.to_excel(path)] on the rows of the report: the path written *)
  to_excel : list (pystr * product) -> result pystr
}.

(** [s.split(sep)] for a one-character separator. *)
Fixpoint split_on (sep : Z) (s : pystr) : list pystr :=
  match s with
  | [] => [[]]
  | c :: s' =>
      if c =? sep then [] :: split_on sep s'
      else match split_on sep s' with
           | w :: ws => (c :: w) :: ws
           | [] => [[c]]
           end
  end.

(** [s.replace(" ", by)] *)
Definition replace_space (by_ : pystr) (s : pystr) : pystr :=
  flat_map (fun c => if c =? 32 then by_ else [c]) s.

(** The loop over the cards: [extract] may raise, which leaves the loop. *)
Fixpoint parse_cards (u : pystr) (cards : list pystr) (products : list product)
    : result (list product) :=
  match cards with
  | [] => Value products
  | card :: cards' =>
      price_data ← extract card;
      match price_data with
      | Some r =>
          match split_on 47 u !! 2%nat with
          | Some host =>
              parse_cards u cards'
                (products ++ [mkProduct (take 100 card) (rd_toman r)
                                (currency_name (rd_currency r)) host
                                (cps "Iran") u])
          | None => Raise (RuntimeFault (cps "list index out of range"))
          end
      | None => parse_cards u cards' products
      end
  end.

(** [_fetch_one]: whatever is raised inside the [try] gives the empty
    list. *)
Definition _fetch_one (w : world) (u term : pystr) : list product :=
  match (html ← scrape w u;
         cards ← select_cards w html;
         parse_cards u (take 5 cards) []) with
  | Value products => products
  | Raise _ => []
  end.

Definition urls (term : pystr) : list pystr :=
  [cps "https://torob.ir/search/?query=" ++ replace_space (cps "%20") term;
   cps "https://divar.ir/s/tehran?q=" ++ replace_space (cps "%20") term;
   cps "https://www.amazon.com/s?k=" ++ replace_space (cps "+") term].

(** [asyncio.gather]: the results, in the order of the awaitables. *)
Definition gather {A} (tasks : list A) : list A := tasks.

(** The same list, filled slot by slot in the order in which the tasks
    complete ([order] lists the indices of the tasks as they finish). *)
Definition gather_as_completed {A} (order : list nat) (tasks : list A)
    : list (option A) :=
  fold_left (fun slots i => <[i := tasks !! i]> slots) order
            (replicate (length tasks) None).

Record term_result := mkTermResult {
  search_term : pystr;
  products : list product;
  tr_analysis : analysis
}.

Record report := mkReport {
  summary_total : Z;
  results : list term_result
}.

(** One turn of the loop [for term in terms]. *)
Definition search_one (w : world) (term : pystr) : term_result :=
  let tasks := map (fun u => _fetch_one w u term) (urls term) in
  let results := gather tasks in
  let products := concat results in
  mkTermResult term products (run products).

Definition sum_Z (l : list Z) : Z := fold_right Z.add 0 l.

(** The report [search] builds before it hands it to the notifier. *)
Definition build_report (w : world) (terms : list pystr) : report :=
  let all_results := map (search_one w) terms in
  mkReport (sum_Z (map (fun r => Z.of_nat (length (products r))) all_results))
           all_results.

(** [Notifier.save_excel]: one row per product, under its search term. *)
Definition save_excel (w : world) (rep : report) : result pystr :=
  to_excel w
    (flat_map (fun r => map (fun p => (search_term r, p)) (products r))
              (results rep)).

Definition search (w : world) (terms : list pystr) (task_id : pystr)
    : result pystr :=
  save_excel w (build_report w terms).

(* ===================================================================== *)
(** * Flask app                                                           *)
(* ===================================================================== *)

(** An entry of [results_store]; [None] is a key the dict does not have. *)
Record entry := mkEntry {
  status : pystr;
  excel_path : option pystr;
  reason : option pystr
}.

Abbreviation store := (gmap pystr entry).

Definition run_in_thread (w : world) (terms : list pystr) (task_id : pystr)
    (results_store : store) : store :=
  match search w terms task_id with
  | Value path =>
      <[task_id := mkEntry (cps "done") (Some path) None]> results_store
  | Raise e =>
      <[task_id := mkEntry (cps "failed") None (Some (str_exn e))]> results_store
  end.

(** [s.strip()] *)
Fixpoint lstrip (s : pystr) : pystr :=
  match s with
  | c :: s' => if is_space c then lstrip s' else s
  | [] => []
  end.

Definition strip (s : pystr) : pystr := rev (lstrip (rev (lstrip s))).

(** [int(x)] on a float: truncation towards zero. *)
Definition py_int (x : float) : result Z :=
  match x with
  | S754_zero _ => Value 0
  | S754_finite s m e =>
      let a := if 0 <=? e then Z.shiftl (Zpos m) e else Z.shiftr (Zpos m) (- e) in
      Value (if s then - a else a)
  | S754_infinity _ =>
      Raise (RuntimeFault (cps "cannot convert float infinity to integer"))
  | S754_nan => Raise ValueError
  end.

(** [str(n)] on an int. *)
Definition str_of_Z (n : Z) : pystr := cps (NilZero.string_of_int (Z.to_int n)).

Inductive request :=
| GET
| POST (terms_field : option pystr).

Inductive response :=
| Redirect (target : pystr) (flashed : pystr)
| RedirectSelf (flashed : pystr) (* [redirect(request.url)] *)
| Page (template : pystr)
| Json (code : Z) (json_status : pystr) (json_report : option entry).

(** The background thread [index] starts: [run_in_thread(terms, task_id)]. *)
Record thread := mkThread {
  th_terms : list pystr;
  th_task_id : pystr
}.

(** [index], given the reading [now] of [time.time()]: the response, the
    store it leaves and the thread it has started, if any. *)
Definition index (req : request) (now : float) (results_store : store)
    : result (response * store * option thread) :=
  match req with
  | POST field =>
      let raw := strip (default [] field) in
      match raw with
      | [] => Value (RedirectSelf (cps "warning"), results_store, None)
      | _ =>
          let terms :=
            take 10 (filter (fun t => t ≠ [])
                            (map strip (split_on 10 raw))) in
          n ← py_int now;
          let task_id := str_of_Z n in
          Value (Redirect (cps "/result/" ++ task_id) (cps "info"),
                 <[task_id := mkEntry (cps "processing") None None]> results_store,
                 Some (mkThread terms task_id))
      end
  | GET => Value (Page (cps "INDEX_HTML"), results_store, None)
  end.

(** [api_status]: only reads the store. *)
Definition api_status (task_id : pystr) (results_store : store) : response :=
  match results_store !! task_id with
  | None => Json 404 (cps "not_found") None
  | Some e => Json 200 (cps "done") (Some e)
  end.

(** ** The other routes *)

(** What [result] and [api_download] answer with. *)
Inductive reply :=
| Rendered (template : pystr) (task_id : option pystr) (rendered_report : option entry)
| Text (body : pystr) (code : Z)
| SendFile (path : pystr).

(** [report.get('reason')] inside an f-string: the reason, or the text of
    [None]. *)
Definition reason_text (e : entry) : pystr :=
  match reason e with
  | Some msg => msg
  | None => cps "None"
  end.

(** The prefix of the error text: U+062E U+0637 U+0627, a colon and a
    space. *)
Definition error_prefix : pystr := [1582; 1591; 1575; 58; 32].

(** [render_template_string] on a template with the variables [task_id]
    and [report]. A template that opens with [{% extends parent %}] has
    its parent looked up by name when it is rendered; the application
    keeps its templates in strings and registers none under a name, so the
    lookup raises. A template without a parent is rendered as it stands. *)
Definition render_template_string (template : pystr) (extends : option pystr)
    (task_id : option pystr) (report : option entry) : result reply :=
  match extends with
  | Some parent => Raise (TemplateNotFound parent)
  | None => Value (Rendered template task_id report)
  end.

(** The parent that [WAITING_HTML] and [RESULT_HTML] extend. *)
Definition base_html : pystr := cps "base.html".

(** The route [result]; an exception that leaves the route is answered by
    Flask with 500. *)
Definition result_route (task_id : pystr) (results_store : store)
    : result reply :=
  match results_store !! task_id with
  | None =>
      render_template_string (cps "WAITING_HTML") (Some base_html)
                             (Some task_id) None
  | Some report =>
      if decide (status report = cps "failed")
      then Value (Text (error_prefix ++ reason_text report) 500)
      else render_template_string (cps "RESULT_HTML") (Some base_html)
                                  None (Some report)
  end.

(** [api_download], given which paths exist on the disk. *)
Definition api_download (path_exists : pystr -> bool) (task_id : pystr)
    (results_store : store) : reply :=
  match results_store !! task_id with
  | None => Text (cps "Not found") 404
  | Some e =>
      match excel_path e with
      | Some path =>
          if bool_decide (path ≠ []) && path_exists path
          then SendFile path
          else Text (cps "File not ready") 202
      | None => Text (cps "File not ready") 202
      end
  end.

(** ** The server as a transition system

    The state is the registry and the background threads that have been
    started and have not finished yet. A thread touches the registry once,
    by the assignment that ends [run_in_thread]. *)
Record server := mkServer {
  registry : store;
  running : list thread
}.

Inductive step (w : world) : server -> server -> Prop :=
| step_submit (field : option pystr) (now : float) (sv : server)
      (r : response) (st' : store) (t : thread) :
    index (POST field) now (registry sv) = Value (r, st', Some t) ->
    step w sv (mkServer st' (t :: running sv))
| step_finish (sv : server) (before after : list thread) (t : thread) :
    running sv = before ++ t :: after ->
    step w sv (mkServer (run_in_thread w (th_terms t) (th_task_id t) (registry sv))
                        (before ++ after)).

(** The states the server can be in, from the empty registry. *)
Inductive reachable (w : world) : server -> Prop :=
| reachable_start : reachable w (mkServer ∅ [])
| reachable_step (sv sv' : server) :
    reachable w sv -> step w sv sv' -> reachable w sv'.

(* ===================================================================== *)
(** * The vocabulary of the statements *)
(* ===================================================================== *)

(** Predicates on the products of a fetch. *)
Definition from_iran (p : product) : Prop := country p = cps "Iran".
Definition fetched_from (u : pystr) (p : product) : Prop := url p = u.

(** The per-source results of a term, as [search] sees them after the
    fan-in when the three fetches complete in the order [order]. *)
Definition fan_in (w : world) (order : list nat) (term : pystr)
    : list (option (list product)) :=
  gather_as_completed order (map (fun u => _fetch_one w u term) (urls term)).

(** A world for the examples: torob answers with two listings, divar times
    out, amazon answers with one listing. *)
Definition torob_page : pystr := cps "<torob>".
Definition amazon_page : pystr := cps "<amazon>".

Definition demo_world : world :=
  mkWorld
    (fun u =>
       match split_on 47 u !! 2%nat with
       | Some host =>
           if decide (host = cps "torob.ir") then Value torob_page
           else if decide (host = cps "www.amazon.com") then Value amazon_page
           else Raise (RuntimeFault (cps "timeout"))
       | None => Raise (RuntimeFault (cps "bad url"))
       end)
    (fun html =>
       if decide (html = torob_page)
       then Value [cps "A54 15,000,000 " ++ toman_unit; cps "no price here"]
       else Value [cps "Galaxy A54 $500"])
    (fun rows => Value (cps "price_report.xlsx")).

(** 1700000000.25 and 1700000000.75 *)
Definition quarter_past : float := S754_finite false 6800000001 (-2).
Definition quarter_to : float := S754_finite false 6800000003 (-2).

(** A world whose spreadsheet writer fails. *)
Definition disk_full_world : world :=
  mkWorld (scrape demo_world) (select_cards demo_world)
          (fun _ => Raise (RuntimeFault (cps "No space left on device"))).

(** [x] is in the class [[\d,]]. *)
Definition dc (x : Z) : Prop := in_cset digit_or_comma x = true.

(** [s.startswith(u)] *)
Fixpoint starts_with (u s : pystr) : bool :=
  match u, s with
  | [], _ => true
  | a :: u', b :: s' => (b =? a) && starts_with u' s'
  | _ :: _, [] => false
  end.

(** What [\s?unit] accepts: the unit, or one space and the unit. *)
Definition tail_ok (u s : pystr) : bool :=
  match s with
  | c :: s' => (is_space c && starts_with u s') || starts_with u s
  | [] => starts_with u []
  end.

(** The floats [x] with [0 <= x]: zeros, positive numbers, infinity. *)
Definition signless (x : float) : Prop :=
  match x with
  | S754_zero _ | S754_infinity false | S754_finite false _ _ => True
  | _ => False
  end.

(** The match the two loops of [extract] stop at: the first pattern, in
    the order of the dict, that matches somewhere in the text. *)
Fixpoint first_match_pats (pats : list regex) (text : pystr) : option pystr :=
  match pats with
  | [] => None
  | pat :: pats' =>
      match re_search pat text with
      | Some g => Some g
      | None => first_match_pats pats' text
      end
  end.

Fixpoint first_match (items : list (currency * list regex)) (text : pystr)
    : option (currency * pystr) :=
  match items with
  | [] => None
  | (curr, pats) :: items' =>
      match first_match_pats pats text with
      | Some g => Some (curr, g)
      | None => first_match items' text
      end
  end.


(** The characters the markers are made of: [$] and the letters of the
    unit tokens. *)
Definition marker_letters : pystr := 36 :: toman_unit ++ rial_unit ++ dirham_unit.

Definition marker_free (s : pystr) : Prop := Forall (fun x => x ∉ marker_letters) s.

(** No space, or one. *)
Definition gap (sp : pystr) : Prop :=
  sp = [] \/ exists x, sp = [x] /\ is_space x = true.

(** The literal [w] with the marker of [c]: before the unit token (with
    the gap [sp] between them), or after the [$]. *)
Definition listing (c : currency) (w sp : pystr) : pystr :=
  match c with
  | toman => w ++ sp ++ toman_unit
  | rial => w ++ sp ++ rial_unit
  | dollar => 36 :: w
  | dirham => w ++ sp ++ dirham_unit
  end.

(** The text around the literal does not continue it. *)
Definition ends_outside_number (pre : pystr) : Prop :=
  match last pre with
  | Some z => in_cset digit_or_comma z = false
  | None => True
  end.

Definition starts_outside_number (post : pystr) : Prop :=
  match head post with
  | Some z => in_cset digit_or_comma z = false
  | None => True
  end.

(** Membership in a list that is written out. *)
Ltac in_list :=
  unfold marker_letters, toman_unit, rial_unit, dirham_unit; cbn [app];
  repeat (apply elem_of_cons; first [left; reflexivity | right]).

Ltac not_in_list :=
  let H := fresh in
  intros H; repeat (apply elem_of_cons in H as [H|H]; [discriminate H|]);
  by apply elem_of_nil in H.

(** The three shapes of an entry the program writes. *)
Definition entry_ok (e : entry) : Prop :=
  e = mkEntry (cps "processing") None None
  \/ (exists path, e = mkEntry (cps "done") (Some path) None)
  \/ (exists msg, e = mkEntry (cps "failed") None (Some msg)).

(** The product [_fetch_one] builds from a card with a price. *)
Definition product_of (u host card : pystr) (r : reading) : product :=
  mkProduct (take 100 card) (rd_toman r) (currency_name (rd_currency r)) host
            (cps "Iran") u.

(** What a card contributes to the products, when [extract] returns. *)
Definition card_product (u host card : pystr) : option product :=
  match extract card with
  | Value (Some r) => Some (product_of u host card r)
  | _ => None
  end.

(** The hosts of the three sources. *)
Definition source_hosts : list pystr :=
  [cps "torob.ir"; cps "divar.ir"; cps "www.amazon.com"].

(** A world whose torob page has a priced listing and then one with a
    literal of commas alone. *)
Definition comma_world : world :=
  mkWorld (fun _ => Value torob_page)
          (fun _ => Value [cps "A54 15,000,000 " ++ toman_unit;
                           cps "A55 , " ++ toman_unit])
          (fun _ => Value (cps "price_report.xlsx")).

(** The string is empty or starts with a character that is no space. *)
Definition clean_head (s : pystr) : Prop :=
  match s with
  | x :: _ => is_space x = false
  | [] => True
  end.

(** The server after one submission at 1700000000.25. *)
Definition one_submission : server :=
  mkServer (<[str_of_Z 1700000000 := mkEntry (cps "processing") None None]> ∅)
           [mkThread [cps "laptop"] (str_of_Z 1700000000)].

(* ===================================================================== *)
(** * The matcher on the patterns of [extract] *)
(* ===================================================================== *)

Lemma starts_with_app u tl : starts_with u (u ++ tl) = true.
Proof. induction u as [|a u IH]; simpl; [done|]. by rewrite Z.eqb_refl. Qed.

Lemma starts_with_split u s :
  starts_with u s = true -> exists tl, s = u ++ tl.
Proof.
  revert s. induction u as [|a u IH]; intros s H; simpl in *.
  - by exists s.
  - destruct s as [|b s]; [discriminate|].
    apply andb_true_iff in H as [Hb Hs]. apply Z.eqb_eq in Hb as ->.
    destruct (IH _ Hs) as [tl ->]. by exists tl.
Qed.

Lemma match_lits u s acc :
  match_here (lits u) s false acc
  = if starts_with u s then Some (rev acc) else None.
Proof.
  revert s. induction u as [|a u IH]; intros s; simpl; [done|].
  destruct s as [|b s]; [done|]. simpl.
  destruct (b =? a); simpl; [apply IH|done].
Qed.

Lemma match_tail u s acc :
  match_here (Opt CSpace :: lits u) s false acc
  = if tail_ok u s then Some (rev acc) else None.
Proof.
  cbn [match_here]. destruct s as [|c s].
  - by rewrite match_lits.
  - cbn [in_cset push tail_ok]. rewrite !match_lits.
    destruct (is_space c); simpl; [|done].
    by destruct (starts_with u s); simpl.
Qed.

Lemma plus_loop_ext cs rec k1 k2 s acc :
  (forall s' acc', k1 s' acc' = k2 s' acc') ->
  plus_loop cs rec k1 s acc = plus_loop cs rec k2 s acc.
Proof.
  intros Hk. revert acc. induction s as [|c s IH]; intros acc; [done|].
  cbn [plus_loop]. by rewrite IH, Hk.
Qed.

(** The pattern [([\d,]+)\s?unit] at the head of [s]. *)
Lemma match_amount_then u s :
  match_here (amount_then u) s false []
  = plus_loop digit_or_comma true
      (fun s' acc => if tail_ok u s' then Some (rev acc) else None) s [].
Proof.
  change (match_here (amount_then u) s false [])
    with (plus_loop digit_or_comma true
            (fun s' acc => match_here (Opt CSpace :: lits u) s' false acc) s []).
  apply plus_loop_ext. intros s' acc. apply match_tail.
Qed.

(** The pattern [\$([\d,]+)] at the head of [s]. *)
Lemma match_dollar s :
  match_here dollar_pattern s false []
  = match s with
    | c :: s' =>
        if c =? 36
        then plus_loop digit_or_comma true (fun _ acc => Some (rev acc)) s' []
        else None
    | [] => None
    end.
Proof.
  unfold dollar_pattern. cbn [match_here]. destruct s as [|c s]; [done|].
  cbn [in_cset push]. destruct (c =? 36); done.
Qed.

(** A success of [x+] has consumed a non-empty run of [x] and continued
    from its end. *)
Lemma plus_loop_sound cs k s acc g :
  plus_loop cs true k s acc = Some g ->
  exists run rest,
    s = run ++ rest /\ run <> []
    /\ Forall (fun x => in_cset cs x = true) run
    /\ k rest (rev run ++ acc) = Some g.
Proof.
  revert acc. induction s as [|c s IH]; intros acc H; [discriminate|].
  cbn [plus_loop push] in H. destruct (in_cset cs c) eqn:Hc; [|discriminate].
  destruct (plus_loop cs true k s (c :: acc)) as [g'|] eqn:Hrec.
  - injection H as ->. destruct (IH _ Hrec) as (run & rest & -> & _ & Hrun & Hk).
    exists (c :: run), rest. repeat split; [done|by constructor|].
    simpl. by rewrite <- app_assoc.
  - exists [c], s. repeat split; [done|by repeat constructor|done].
Qed.

(** Greedy: when the rest of the pattern accepts what follows the whole
    run, that is the match. *)
Lemma plus_loop_greedy cs k run rest acc g :
  run <> [] ->
  Forall (fun x => in_cset cs x = true) run ->
  (forall x, head rest = Some x -> in_cset cs x = false) ->
  k rest (rev run ++ acc) = Some g ->
  plus_loop cs true k (run ++ rest) acc = Some g.
Proof.
  intros Hne Hrun Hrest. revert acc Hne.
  induction Hrun as [|c run Hc Hrun IH]; intros acc Hne Hk; [done|].
  cbn [app plus_loop push]. rewrite Hc.
  simpl in Hk. rewrite <- app_assoc in Hk. simpl in Hk.
  destruct run as [|c' run'].
  - simpl in *. destruct rest as [|x rest']; simpl.
    + done.
    + rewrite (Hrest x eq_refl). done.
  - rewrite IH; [done|done|done].
Qed.

Lemma re_search_suffix p s g :
  re_search p s = Some g ->
  exists before s', s = before ++ s' /\ match_here p s' false [] = Some g.
Proof.
  induction s as [|c s IH]; simpl; intros H.
  - destruct (match_here p [] false []) eqn:E; [|discriminate].
    exists [], []. by rewrite E.
  - destruct (match_here p (c :: s) false []) eqn:E.
    + exists [], (c :: s). by rewrite E.
    + destruct (IH H) as (before & s' & -> & Hm). by exists (c :: before), s'.
Qed.

Lemma re_search_skip p before s :
  (forall b1 b2, before = b1 ++ b2 -> b2 <> [] ->
                 match_here p (b2 ++ s) false [] = None) ->
  re_search p (before ++ s) = re_search p s.
Proof.
  induction before as [|c before IH]; intros H; [done|].
  assert (H0 : match_here p (c :: before ++ s) false [] = None)
    by by apply (H [] (c :: before)).
  cbn [app re_search]. rewrite H0.
  apply IH. intros b1 b2 -> Hb2. by apply (H (c :: b1) b2).
Qed.

Lemma re_search_here p s g :
  match_here p s false [] = Some g -> re_search p s = Some g.
Proof. intros H. destruct s; simpl; by rewrite H. Qed.

(* ===================================================================== *)
(** * Characters, digits and floats *)
(* ===================================================================== *)

Lemma decimal_in_range zeros c d :
  decimal_in zeros c = Some d -> 0 <= d < 10.
Proof.
  induction zeros as [|z zeros IH]; simpl; [discriminate|].
  destruct ((z <=? c) && (c <? z + 10)) eqn:E; [|exact IH].
  intros [= <-]. apply andb_true_iff in E as [H1 H2]. lia.
Qed.

Lemma decimal_value_range c d : decimal_value c = Some d -> 0 <= d < 10.
Proof. apply decimal_in_range. Qed.

Lemma space_not_dc x : is_space x = true -> in_cset digit_or_comma x = false.
Proof.
  intros H. unfold is_space in H.
  repeat rewrite ?orb_true_iff, ?andb_true_iff, ?Z.leb_le, ?Z.eqb_eq in H.
  assert (Hx : Exists (eq x)
    [9; 10; 11; 12; 13; 28; 29; 30; 31; 32; 133; 160; 5760; 8192; 8193; 8194;
     8195; 8196; 8197; 8198; 8199; 8200; 8201; 8202; 8232; 8233; 8239; 8287;
     12288]).
  { repeat rewrite Exists_cons. rewrite Exists_nil. lia. }
  repeat (apply Exists_cons in Hx as [->|Hx]; [reflexivity|]).
  by apply Exists_nil in Hx.
Qed.

(** [translate] only rewrites decimal digits, into ASCII digits of the
    same value. *)
Lemma digit_table_sound x y :
  table_get digit_table x = Some y ->
  is_decimal x = true /\ is_decimal y = true
  /\ decimal_value y = decimal_value x /\ 48 <= y <= 57.
Proof.
  unfold digit_table, maketrans.
  set (t := combine _ _). vm_compute in t. subst t. cbn [table_get].
  repeat match goal with
         | |- context [x =? ?k] =>
             destruct (Z.eqb_spec x k) as [->|_];
             [intros [= <-]; repeat split; (reflexivity || lia)|]
         end.
  discriminate.
Qed.

Lemma translate_non_digit x :
  is_decimal x = false ->
  match table_get digit_table x with Some c' => c' | None => x end = x.
Proof.
  intros H. destruct (table_get digit_table x) as [y|] eqn:E; [|done].
  apply digit_table_sound in E as [E _]. congruence.
Qed.

Lemma translate_app tbl a b :
  translate tbl (a ++ b) = translate tbl a ++ translate tbl b.
Proof. apply map_app. Qed.

Lemma translate_dc w :
  Forall dc w -> Forall dc (translate digit_table w).
Proof.
  intros H. apply Forall_map. eapply Forall_impl; [exact H|].
  intros x Hx. cbv beta delta [compose].
  destruct (table_get digit_table x) as [y|] eqn:E; [|done].
  apply digit_table_sound in E as (_ & Hy & _).
  unfold dc. cbn [in_cset digit_or_comma]. by rewrite Hy.
Qed.

Lemma replace_comma_digits g :
  Forall dc g -> Forall (fun x => is_decimal x = true) (replace_comma g).
Proof.
  intros H. unfold replace_comma. induction H as [|x g Hx _ IH]; [constructor|].
  rewrite filter_cons. destruct (decide (x ≠ 44)) as [Hne|_]; [|exact IH].
  constructor; [|exact IH]. unfold dc in Hx. simpl in Hx.
  apply orb_true_iff in Hx as [Hx|Hx]; [done|]. apply Z.eqb_eq in Hx. done.
Qed.

Lemma digits_value_total s acc :
  Forall (fun x => is_decimal x = true) s -> 0 <= acc ->
  exists n, digits_value acc s = Some n /\ 0 <= n.
Proof.
  intros H. revert acc. induction H as [|x s Hx _ IH]; intros acc Hacc; simpl.
  - by exists acc.
  - unfold is_decimal in Hx. destruct (decimal_value x) as [d|] eqn:E; [|discriminate].
    apply decimal_value_range in E. apply IH. lia.
Qed.

Lemma signless_nonneg x : signless x <-> float_nonneg x = true.
Proof. by destruct x as [[]|[]| |[] m e]. Qed.

Lemma iter_pos_inv {A} (P : A -> Prop) (f : A -> A) n x :
  (forall y, P y -> P (f y)) -> P x -> P (SpecFloat.iter_pos f n x).
Proof.
  intros Hf. revert x. induction n as [n IH|n IH|]; intros x Hx; simpl.
  - apply IH, IH, Hf, Hx.
  - apply IH, IH, Hx.
  - apply Hf, Hx.
Qed.

Lemma shr_1_nonneg mrs : 0 <= shr_m mrs -> 0 <= shr_m (shr_1 mrs).
Proof.
  destruct mrs as [m r s]. simpl. destruct m as [|[q|q|]|q]; simpl; lia.
Qed.

Lemma shr_fexp_nonneg m e l :
  0 <= m -> 0 <= shr_m (fst (shr_fexp prec emax m e l)).
Proof.
  intros Hm. unfold shr_fexp, shr.
  assert (H0 : 0 <= shr_m (shr_record_of_loc m l)) by by destruct l as [|[]].
  destruct (fexp prec emax (Zdigits2 m + e) - e) as [|q|q]; simpl; try done.
  apply (iter_pos_inv (fun mrs => 0 <= shr_m mrs)); [apply shr_1_nonneg|done].
Qed.

Lemma round_nearest_even_nonneg m l : 0 <= m -> 0 <= round_nearest_even m l.
Proof.
  intros Hm. unfold round_nearest_even.
  destruct l as [|[]]; try destruct (Z.even m); lia.
Qed.

(** Rounding a non-negative mantissa gives a zero, a number or an
    infinity of the sign asked for, never a NaN. *)
Lemma binary_round_aux_sign sx m e l :
  0 <= m ->
  match binary_round_aux prec emax sx m e l with
  | S754_zero s | S754_infinity s | S754_finite s _ _ => s = sx
  | S754_nan => False
  end.
Proof.
  intros Hm. unfold binary_round_aux.
  pose proof (shr_fexp_nonneg m e l Hm) as H1.
  destruct (shr_fexp prec emax m e l) as [mrs' e']. simpl in H1.
  pose proof (shr_fexp_nonneg
    (round_nearest_even (shr_m mrs') (loc_of_shr_record mrs')) e' loc_Exact
    (round_nearest_even_nonneg _ _ H1)) as H2.
  destruct (shr_fexp prec emax _ e' loc_Exact) as [mrs'' e'']. simpl in H2.
  destruct (shr_m mrs'') as [|q|q]; [done| |lia].
  by destruct (e'' <=? emax - prec).
Qed.

Lemma binary_round_aux_signless m e l :
  0 <= m -> signless (binary_round_aux prec emax false m e l).
Proof.
  intros Hm. pose proof (binary_round_aux_sign false m e l Hm) as H.
  destruct (binary_round_aux prec emax false m e l) as [s|s| |s m' e'];
    simpl in *; by subst.
Qed.

Lemma float_of_Z_signless n : 0 <= n -> signless (float_of_Z n).
Proof.
  intros Hn. unfold float_of_Z, binary_normalize.
  destruct n as [|q|q]; [done| |lia].
  unfold binary_round. destruct (shl_align _ _ _) as [mz ez].
  apply binary_round_aux_signless. lia.
Qed.

Lemma float_mul_signless x y m e :
  signless x -> y = S754_finite false m e -> signless (float_mul x y).
Proof.
  intros Hx ->. unfold float_mul.
  destruct x as [s|[]| |[] mx ex]; simpl in *; try done.
  apply binary_round_aux_signless. lia.
Qed.

(** Every rate of the table is a positive float. *)
Lemma rates_positive c x :
  signless x -> signless (float_mul_num x (rates c)).
Proof.
  intros Hx. destruct c; simpl;
    eapply float_mul_signless; try exact Hx; vm_compute; reflexivity.
Qed.

(** ** The sum of a column *)

Lemma add_blocks_length (blocks : nat) (r a : list float) :
  length r = 8%nat -> (8 * blocks <= length a)%nat ->
  length (add_blocks blocks r a) = 8%nat.
Proof.
  revert r a. induction blocks as [|b IH]; intros r a Hr Ha; [done|].
  cbn [add_blocks]. apply IH.
  - rewrite length_zip_with, length_take. lia.
  - rewrite length_drop. lia.
Qed.

(** On 8 values and more the tree is taken on eight sums. *)
Lemma block_sum_accumulators (a : list float) :
  (8 <= length a)%nat ->
  exists r0 r1 r2 r3 r4 r5 r6 r7,
    add_blocks (length a / 8 - 1) (take 8 a) (drop 8 a)
    = [r0; r1; r2; r3; r4; r5; r6; r7].
Proof.
  intros Hn.
  assert (H : length (add_blocks (length a / 8 - 1) (take 8 a) (drop 8 a)) = 8%nat).
  { apply add_blocks_length.
    - rewrite length_take. lia.
    - rewrite length_drop.
      pose proof (Nat.div_mod_eq (length a) 8). lia. }
  destruct (add_blocks _ _ _) as [|r0 [|r1 [|r2 [|r3 [|r4 [|r5 [|r6 [|r7 [|r8 r]]]]]]]]];
    try discriminate H.
  by exists r0, r1, r2, r3, r4, r5, r6, r7.
Qed.

Lemma pairwise_sum_upto_fuel (f1 f2 : nat) (a : list float) :
  (length a <= f1)%nat -> (length a <= f2)%nat ->
  pairwise_sum_upto f1 a = pairwise_sum_upto f2 a.
Proof.
  revert f2 a. induction f1 as [|f1 IH]; intros f2 a H1 H2.
  - destruct a; [|cbn in H1; lia]. by destruct f2.
  - destruct f2 as [|f2]; [destruct a; [done|cbn in H2; lia]|].
    cbn [pairwise_sum_upto].
    destruct (Nat.ltb_spec (length a) 8); [done|].
    destruct (Nat.leb_spec (length a) 128); [done|].
    pose proof (Nat.div_mod_eq (length a) 2).
    pose proof (Nat.mod_upper_bound (length a) 2).
    pose proof (Nat.mod_upper_bound (length a / 2) 8).
    pose proof (Nat.div_mod_eq (length a / 2) 8).
    f_equal; apply IH; rewrite ?length_take, ?length_drop; lia.
Qed.

(** The three cases of the pairwise sum. *)
Lemma pairwise_sum_short (a : list float) :
  (length a < 8)%nat -> pairwise_sum a = fold_left float_add a (S754_zero false).
Proof.
  intros H. unfold pairwise_sum. destruct (length a) eqn:E.
  - by destruct a.
  - cbn [pairwise_sum_upto]. rewrite E.
    by destruct (Nat.ltb_spec (S n) 8); [|lia].
Qed.

Lemma pairwise_sum_block (a : list float) :
  (8 <= length a <= 128)%nat -> pairwise_sum a = block_sum a.
Proof.
  intros H. unfold pairwise_sum. destruct (length a) eqn:E; [lia|].
  cbn [pairwise_sum_upto]. rewrite E.
  destruct (Nat.ltb_spec (S n) 8); [lia|].
  by destruct (Nat.leb_spec (S n) 128); [|lia].
Qed.

Lemma pairwise_sum_split (a : list float) :
  (128 < length a)%nat ->
  let n2 := (length a / 2 - (length a / 2) mod 8)%nat in
  pairwise_sum a = float_add (pairwise_sum (take n2 a)) (pairwise_sum (drop n2 a)).
Proof.
  intros H. cbv zeta. unfold pairwise_sum at 1. destruct (length a) eqn:E; [lia|].
  cbn [pairwise_sum_upto]. rewrite E.
  destruct (Nat.ltb_spec (S n) 8); [lia|].
  destruct (Nat.leb_spec (S n) 128); [lia|].
  pose proof (Nat.div_mod_eq (S n) 2).
  pose proof (Nat.mod_upper_bound (S n) 2).
  pose proof (Nat.mod_upper_bound (S n / 2) 8).
  pose proof (Nat.div_mod_eq (S n / 2) 8).
  unfold pairwise_sum.
  f_equal; apply pairwise_sum_upto_fuel;
    rewrite ?length_take, ?length_drop, ?E; lia.
Qed.

(** Eight values are not added from left to right: 2^53, 0, 1, 1 and four
    zeros give 2^53 + 2, where the running sum would stay at 2^53. *)
Example series_sum_of_eight :
  series_sum (map float_of_Z [2 ^ 53; 0; 1; 1; 0; 0; 0; 0]) = float_of_Z (2 ^ 53 + 2)
  /\ fold_left float_add (map float_of_Z [2 ^ 53; 0; 1; 1; 0; 0; 0; 0]) (S754_zero false)
     = float_of_Z (2 ^ 53).
Proof. split; vm_compute; reflexivity. Qed.

(* ===================================================================== *)
(** * What [extract] returns *)
(* ===================================================================== *)

Lemma extract_pats_first_match curr pats text :
  extract_pats curr pats text
  = option_map (on_match curr) (first_match_pats pats text).
Proof.
  induction pats as [|pat pats IH]; simpl; [done|].
  by destruct (re_search pat text).
Qed.

Lemma extract_items_first_match items text :
  extract_items items text
  = match first_match items text with
    | Some (c, g) => on_match c g
    | None => Value None
    end.
Proof.
  induction items as [|[curr pats] items IH]; simpl; [done|].
  rewrite extract_pats_first_match.
  by destruct (first_match_pats pats text).
Qed.

Lemma first_match_pats_None pats text :
  first_match_pats pats text = None <->
  forall pat, pat ∈ pats -> re_search pat text = None.
Proof.
  induction pats as [|pat pats IH]; simpl.
  - split; [intros _ pat Hin; by apply elem_of_nil in Hin|done].
  - destruct (re_search pat text) as [g|] eqn:E.
    + split; [discriminate|]. intros H.
      rewrite H in E; [done|apply elem_of_cons; by left].
    + rewrite IH. split.
      * intros H q Hq. apply elem_of_cons in Hq as [->|Hq]; [done|by apply H].
      * intros H q Hq. apply H. apply elem_of_cons. by right.
Qed.

Lemma first_match_None items text :
  first_match items text = None <->
  forall c pats pat, (c, pats) ∈ items -> pat ∈ pats -> re_search pat text = None.
Proof.
  induction items as [|[curr pats] items IH]; simpl.
  - split; [intros _ c pats pat Hin; by apply elem_of_nil in Hin|done].
  - destruct (first_match_pats pats text) as [g|] eqn:E.
    + split; [discriminate|]. intros H.
      assert (first_match_pats pats text = None) as E'.
      { apply first_match_pats_None. intros pat Hpat.
        apply (H curr pats pat); [apply elem_of_cons; by left|done]. }
      congruence.
    + rewrite IH. split.
      * intros H c ps pat Hc Hpat. apply elem_of_cons in Hc as [[= -> ->]|Hc].
        -- by apply (proj1 (first_match_pats_None _ _) E).
        -- by eapply H.
      * intros H c ps pat Hc Hpat.
        apply (H c ps pat); [apply elem_of_cons; by right|done].
Qed.

(** The chosen match belongs to a pattern of its currency, and nothing
    declared before it matches. *)
Lemma first_match_Some items text c g :
  first_match items text = Some (c, g) ->
  exists l1 pats l2 pat,
    items = l1 ++ (c, pats) :: l2 /\ pat ∈ pats /\ re_search pat text = Some g
    /\ forall c' pats' pat',
         (c', pats') ∈ l1 -> pat' ∈ pats' -> re_search pat' text = None.
Proof.
  induction items as [|[curr pats] items IH]; simpl; [discriminate|].
  destruct (first_match_pats pats text) as [g'|] eqn:E.
  - intros [= -> ->]. exists [], pats, items.
    assert (exists pat, pat ∈ pats /\ re_search pat text = Some g) as (pat & ? & ?).
    { clear -E. induction pats as [|q pats IH]; simpl in E; [discriminate|].
      destruct (re_search q text) as [g0|] eqn:Eq.
      - injection E as ->. exists q. split; [apply elem_of_cons; by left|done].
      - destruct (IH E) as (pat & ? & ?). exists pat.
        split; [apply elem_of_cons; by right|done]. }
    exists pat. repeat split; try done.
    intros c' pats' pat' Hin. by apply elem_of_nil in Hin.
  - intros H. destruct (IH H) as (l1 & ps & l2 & pat & -> & Hpat & Hg & Hnone).
    exists ((curr, pats) :: l1), ps, l2, pat. repeat split; try done.
    intros c' pats' pat' Hin Hpat'. apply elem_of_cons in Hin as [[= -> ->]|Hin].
    + by apply (proj1 (first_match_pats_None _ _) E).
    + by eapply Hnone.
Qed.

(** The literal a pattern of the table captures: digits and commas, at
    least one of them. *)
Lemma pattern_group c pats pat text g :
  (c, pats) ∈ patterns -> pat ∈ pats ->
  re_search pat text = Some g ->
  Forall dc g /\ g <> [].
Proof.
  intros Hc Hpat Hs.
  apply re_search_suffix in Hs as (before & s & _ & Hm).
  assert (Hcases : (exists u, pat = amount_then u) \/ pat = dollar_pattern).
  { unfold patterns in Hc.
    repeat (apply elem_of_cons in Hc as [[= -> ->]|Hc];
            [apply list_elem_of_singleton in Hpat as ->; eauto|]).
    by apply elem_of_nil in Hc. }
  destruct Hcases as [[u ->]| ->].
  - rewrite match_amount_then in Hm.
    apply plus_loop_sound in Hm as (run & rest & _ & Hne & Hrun & Hk).
    destruct (tail_ok u rest); [|discriminate]. injection Hk as <-.
    rewrite app_nil_r, rev_involutive. done.
  - rewrite match_dollar in Hm. destruct s as [|x s]; [discriminate|].
    destruct (x =? 36); [|discriminate].
    apply plus_loop_sound in Hm as (run & rest & _ & Hne & Hrun & Hk).
    injection Hk as <-. rewrite app_nil_r, rev_involutive. done.
Qed.

(** What the body of [if m:] does with a literal of digits and commas. *)
Lemma on_match_outcome c g :
  Forall dc g ->
  (replace_comma g = [] /\ on_match c g = Raise ValueError)
  \/ (exists n, 0 <= n /\ replace_comma g <> []
                /\ digits_value 0 (replace_comma g) = Some n
                /\ on_match c g
                   = Value (Some (mkReading (float_of_Z n) c
                                    (float_mul_num (float_of_Z n) (rates c))))).
Proof.
  intros Hg. unfold on_match, py_float.
  destruct (digits_value_total (replace_comma g) 0) as (n & Hn & Hpos);
    [by apply replace_comma_digits|lia|].
  destruct (replace_comma g) as [|x s] eqn:E; [by left|].
  right. exists n. rewrite Hn. by repeat split.
Qed.

Lemma first_match_in_table text c g :
  first_match patterns text = Some (c, g) ->
  exists pats pat, (c, pats) ∈ patterns /\ pat ∈ pats
                   /\ re_search pat text = Some g /\ Forall dc g /\ g <> [].
Proof.
  intros H. destruct (first_match_Some _ _ _ _ H)
    as (l1 & pats & l2 & pat & Heq & Hpat & Hg & _).
  assert (Hin : (c, pats) ∈ patterns).
  { rewrite Heq. apply elem_of_app. right. apply elem_of_cons. by left. }
  exists pats, pat. repeat split; try done; by eapply pattern_group.
Qed.

Lemma replace_comma_nil g :
  replace_comma g = [] -> Forall (fun x => x = 44) g.
Proof.
  unfold replace_comma. induction g as [|x g IH]; [constructor|].
  rewrite filter_cons. destruct (decide (x ≠ 44)) as [Hx|Hx]; [discriminate|].
  intros H. constructor; [by apply dec_stable in Hx|by apply IH].
Qed.

Lemma replace_comma_keeps_digit g :
  Exists (fun x => is_decimal x = true) g -> replace_comma g <> [].
Proof.
  intros H E. apply replace_comma_nil in E.
  apply Exists_exists in H as (x & Hx & Hd).
  rewrite Forall_forall in E. by rewrite (E x Hx) in Hd.
Qed.

(** Each currency has one entry in the table, with one pattern. *)
Lemma patterns_key (c : currency) (pats pats' : list regex) (pat pat' : regex) :
  (c, pats) ∈ patterns -> (c, pats') ∈ patterns ->
  pat ∈ pats -> pat' ∈ pats' -> pat = pat'.
Proof.
  unfold patterns. intros H H' Hp Hp'.
  repeat (apply elem_of_cons in H as [H|H]);
    [..|by apply elem_of_nil in H];
    injection H as -> ->;
    (repeat (apply elem_of_cons in H' as [H'|H']);
     [..|by apply elem_of_nil in H']);
    try discriminate H'; injection H' as ->;
    apply list_elem_of_singleton in Hp, Hp'; congruence.
Qed.

(* ===================================================================== *)
(** * A listing with one marker *)
(* ===================================================================== *)

Section AmountThenUnit.
Variables (h : Z) (u' : pystr).
Hypothesis h_not_dc : in_cset digit_or_comma h = false.

Abbreviation u := (h :: u').

Lemma tail_ok_gap sp post : gap sp -> tail_ok u (sp ++ u ++ post) = true.
Proof.
  pose proof (starts_with_app u post) as Hu.
  intros [->|(x & -> & Hx)]; cbn [app tail_ok].
  - cbn [app] in Hu. rewrite Hu. apply orb_true_r.
  - cbn [app] in Hu. by rewrite Hx, Hu.
Qed.

Lemma gap_head_not_dc sp post x :
  gap sp -> head (sp ++ u ++ post) = Some x -> in_cset digit_or_comma x = false.
Proof.
  intros [->|(y & -> & Hy)]; simpl; intros [= <-]; [done|by apply space_not_dc].
Qed.

(** At the literal, the pattern matches and captures it whole. *)
Lemma amount_here w sp post :
  w <> [] -> Forall dc w -> gap sp ->
  match_here (amount_then u) (w ++ sp ++ u ++ post) false [] = Some w.
Proof.
  intros Hne Hw Hsp. rewrite match_amount_then.
  apply plus_loop_greedy; [done|done|intros x; by apply gap_head_not_dc|].
  rewrite tail_ok_gap by done. by rewrite app_nil_r, rev_involutive.
Qed.

(** Before the literal, in a text without the first letter of the unit,
    the pattern matches nowhere. *)
Lemma no_amount_before b y tl acc :
  Forall (fun x => x ≠ h) b -> b <> [] -> ends_outside_number b -> dc y ->
  plus_loop digit_or_comma true
    (fun s' a => if tail_ok u s' then Some (rev a) else None)
    (b ++ y :: tl) acc = None.
Proof.
  intros Hb. revert acc. induction Hb as [|x b Hx Hb IH]; intros acc Hne Hend Hy; [done|].
  cbn [app plus_loop push]. destruct (in_cset digit_or_comma x) eqn:Ex; [|done].
  destruct b as [|x' b'].
  - change (in_cset digit_or_comma x = false) in Hend. congruence.
  - rewrite IH; [|done| |done].
    + assert (tail_ok u ((x' :: b') ++ y :: tl) = false) as ->; [|done].
      cbn [app tail_ok starts_with].
      apply Forall_cons in Hb as [Hx' Hb'].
      rewrite (proj2 (Z.eqb_neq x' h) Hx'), andb_false_l, orb_false_r.
      apply andb_false_iff. right.
      destruct b' as [|x'' b'']; cbn [app starts_with].
      * assert (y ≠ h) as Hyh by (intros ->; unfold dc in Hy; congruence).
        by rewrite (proj2 (Z.eqb_neq y h) Hyh).
      * apply Forall_cons in Hb' as [Hx'' _].
        by rewrite (proj2 (Z.eqb_neq x'' h) Hx'').
    + unfold ends_outside_number in *. by rewrite last_cons_cons in Hend.
Qed.

(** The leftmost match of the pattern in a text with one listing. *)
Lemma search_amount pre w sp post :
  Forall (fun x => x ≠ h) pre -> ends_outside_number pre ->
  w <> [] -> Forall dc w -> gap sp ->
  re_search (amount_then u) (pre ++ w ++ sp ++ u ++ post) = Some w.
Proof.
  intros Hpre Hend Hne Hw Hsp. rewrite re_search_skip.
  - by apply re_search_here, amount_here.
  - intros b1 b2 -> Hb2. rewrite match_amount_then.
    destruct w as [|y w']; [done|]. apply Forall_cons in Hw as [Hy _].
    apply Forall_app in Hpre as [_ Hb].
    apply no_amount_before; try done.
    unfold ends_outside_number in *. rewrite last_app in Hend.
    destruct (last b2) eqn:E; [done|]. by apply last_None in E.
Qed.

End AmountThenUnit.

(** A match of [([\d,]+)\s?unit] shows the unit in the text. *)
Lemma amount_needs_unit u text g l :
  re_search (amount_then u) text = Some g -> l ∈ u -> l ∈ text.
Proof.
  intros Hs Hl. apply re_search_suffix in Hs as (before & s & -> & Hm).
  rewrite match_amount_then in Hm.
  apply plus_loop_sound in Hm as (run & rest & -> & _ & _ & Hk).
  destruct (tail_ok u rest) eqn:Et; [|discriminate].
  assert (exists a tl, rest = a ++ u ++ tl) as (a & tl & ->).
  { destruct rest as [|c rest']; simpl in Et.
    - apply starts_with_split in Et as [tl ->]. by exists [], tl.
    - apply orb_true_iff in Et as [Et|Et].
      + apply andb_true_iff in Et as [_ Et].
        apply starts_with_split in Et as [tl ->]. by exists [c], tl.
      + apply starts_with_split in Et as [tl ->]. by exists [], tl. }
  rewrite !elem_of_app. auto.
Qed.

(** A match of [\$([\d,]+)] shows a [$] in the text. *)
Lemma dollar_needs_sign text g :
  re_search dollar_pattern text = Some g -> 36 ∈ text.
Proof.
  intros Hs. apply re_search_suffix in Hs as (before & s & -> & Hm).
  rewrite match_dollar in Hm. destruct s as [|c s']; [discriminate|].
  destruct (Z.eqb_spec c 36) as [->|_]; [|discriminate].
  rewrite elem_of_app, elem_of_cons. auto.
Qed.

(** The leftmost match of [\$([\d,]+)] in a text with one [$]. *)
Lemma search_dollar pre w post :
  36 ∉ pre -> w <> [] -> Forall dc w -> starts_outside_number post ->
  re_search dollar_pattern (pre ++ 36 :: w ++ post) = Some w.
Proof.
  intros Hpre Hne Hw Hpost. rewrite re_search_skip.
  - apply re_search_here. rewrite match_dollar, Z.eqb_refl.
    apply plus_loop_greedy; [done|done| |by rewrite app_nil_r, rev_involutive].
    intros x Hx. unfold starts_outside_number in Hpost. by rewrite Hx in Hpost.
  - intros b1 b2 -> Hb2. rewrite match_dollar.
    destruct b2 as [|c b2']; [done|]. cbn [app].
    destruct (Z.eqb_spec c 36) as [->|_]; [|done].
    exfalso. apply Hpre. rewrite elem_of_app, elem_of_cons. auto.
Qed.

Lemma marker_letter_class x :
  x ∈ marker_letters ->
  in_cset digit_or_comma x = false /\ is_space x = false /\ is_decimal x = false.
Proof.
  unfold marker_letters, toman_unit, rial_unit, dirham_unit. cbn [app]. intros H.
  repeat (apply elem_of_cons in H as [->|H]; [by vm_compute|]).
  by apply elem_of_nil in H.
Qed.

Lemma translate_marker_free s :
  marker_free s -> marker_free (translate digit_table s).
Proof.
  intros H. apply Forall_map. eapply Forall_impl; [exact H|].
  intros x Hx. cbv beta delta [compose].
  destruct (table_get digit_table x) as [y|] eqn:E; [|done].
  apply digit_table_sound in E as (_ & Hy & _).
  intros Hin. apply marker_letter_class in Hin as (_ & _ & Hin). congruence.
Qed.

Lemma not_dc_not_decimal x : in_cset digit_or_comma x = false -> is_decimal x = false.
Proof. cbn [in_cset digit_or_comma]. by intros [? _]%orb_false_iff. Qed.

Lemma translate_ends s :
  ends_outside_number s -> ends_outside_number (translate digit_table s).
Proof.
  unfold ends_outside_number, translate.
  change (map ?f s) with (f <$> s). rewrite fmap_last.
  destruct (last s) as [z|]; [|done]. cbn [fmap option_fmap option_map].
  intros Hz. by rewrite translate_non_digit by by apply not_dc_not_decimal.
Qed.

Lemma translate_starts s :
  starts_outside_number s -> starts_outside_number (translate digit_table s).
Proof.
  unfold starts_outside_number. destruct s as [|z s]; [done|]. cbn [translate map head].
  intros Hz. by rewrite translate_non_digit by by apply not_dc_not_decimal.
Qed.

Lemma translate_gap sp : gap sp -> translate digit_table sp = sp.
Proof.
  intros [->|(x & -> & Hx)]; [done|]. cbn [translate map].
  by rewrite translate_non_digit
    by by apply not_dc_not_decimal, space_not_dc.
Qed.

Lemma translate_listing c w sp :
  gap sp ->
  translate digit_table (listing c w sp)
  = listing c (translate digit_table w) sp.
Proof.
  intros Hsp. destruct c; cbn [listing];
    rewrite ?translate_app, ?(translate_gap sp Hsp); done.
Qed.

Lemma translate_has_digit w :
  Exists (fun x => is_decimal x = true) w ->
  Exists (fun x => is_decimal x = true) (translate digit_table w).
Proof.
  intros H. apply Exists_exists in H as (x & Hx & Hd). apply Exists_exists.
  destruct (table_get digit_table x) as [y|] eqn:E.
  - exists y. split.
    + apply list_elem_of_fmap. exists x. by rewrite E.
    + by apply digit_table_sound in E as (_ & Hy & _).
  - exists x. split; [|done]. apply list_elem_of_fmap. exists x. by rewrite E.
Qed.

Lemma marker_free_elem l s : marker_free s -> l ∈ s -> l ∉ marker_letters.
Proof. intros H. unfold marker_free in H. rewrite Forall_forall in H. apply H. Qed.

(** A marker letter is not in a text made of clean surroundings, a
    literal, a gap and a unit it does not belong to. *)
Lemma letter_absent l pre w sp unit post :
  l ∈ marker_letters -> l ∉ unit ->
  marker_free pre -> Forall dc w -> gap sp -> marker_free post ->
  l ∉ pre ++ w ++ sp ++ unit ++ post.
Proof.
  intros Hl Hunit Hpre Hw Hsp Hpost.
  destruct (marker_letter_class l Hl) as (Hdc & Hspace & _).
  rewrite !elem_of_app. intros [H|[H|[H|[H|H]]]].
  - by apply (marker_free_elem l pre).
  - rewrite Forall_forall in Hw. specialize (Hw l H). unfold dc in Hw. congruence.
  - destruct Hsp as [->|(x & -> & Hx)]; [by apply elem_of_nil in H|].
    apply list_elem_of_singleton in H as ->. congruence.
  - done.
  - by apply (marker_free_elem l post).
Qed.

Lemma no_amount_without l u text :
  l ∈ u -> l ∉ text -> re_search (amount_then u) text = None.
Proof.
  intros Hl Habs. destruct (re_search (amount_then u) text) as [g|] eqn:E; [|done].
  exfalso. apply Habs. by eapply amount_needs_unit.
Qed.

Lemma no_dollar_without text : 36 ∉ text -> re_search dollar_pattern text = None.
Proof.
  intros Habs. destruct (re_search dollar_pattern text) as [g|] eqn:E; [|done].
  exfalso. apply Habs. by eapply dollar_needs_sign.
Qed.

Lemma marker_free_not l s : l ∈ marker_letters -> marker_free s -> Forall (fun x => x ≠ l) s.
Proof.
  intros Hl H. eapply Forall_impl; [exact H|]. intros x Hx ->. done.
Qed.

(** On a text (digits already translated) with one listing, the two
    loops stop at the pattern of the listing's currency, with its
    literal. *)
Lemma extract_items_listing c pre w sp post :
  marker_free pre -> marker_free post ->
  ends_outside_number pre -> starts_outside_number post ->
  w <> [] -> Forall dc w -> gap sp ->
  extract_items patterns (pre ++ listing c w sp ++ post) = on_match c w.
Proof.
  intros Hpre Hpost Hend Hstart Hne Hw Hsp.
  assert (Hfree : forall l unit, l ∈ marker_letters -> l ∉ unit ->
                                 l ∉ pre ++ w ++ sp ++ unit ++ post).
  { intros l unit Hl Hunit. by apply letter_absent. }
  unfold patterns, toman_unit, rial_unit, dirham_unit.
  cbn [extract_items extract_pats].
  destruct c; cbn [listing]; unfold toman_unit, rial_unit, dirham_unit;
    rewrite <- ?app_assoc.
  - rewrite (search_amount 1578 _ eq_refl); try done.
    eapply marker_free_not; [|done]. in_list.
  - rewrite (no_amount_without 1578 (1578 :: _));
      [|in_list|apply Hfree; [in_list|not_in_list]].
    rewrite (search_amount 1585 _ eq_refl); try done.
    eapply marker_free_not; [|done]. in_list.
  - assert (Habs : forall l, l ∈ marker_letters -> l ≠ 36 -> l ∉ pre ++ 36 :: w ++ post).
    { intros l Hl Hne36 Hin. apply (Hfree l [] Hl); [apply not_elem_of_nil|].
      rewrite !elem_of_app in *. rewrite elem_of_cons, elem_of_app in Hin.
      destruct Hin as [?|[?|[?|?]]]; auto. done. }
    rewrite (no_amount_without 1578 (1578 :: _)); [|in_list|apply Habs; [in_list|done]].
    rewrite (no_amount_without 1740 (1585 :: _)); [|in_list|apply Habs; [in_list|done]].
    change ((36 :: w) ++ post) with (36 :: w ++ post).
    rewrite search_dollar; try done.
    intros Hin. apply (marker_free_elem 36 pre); [done|done|in_list].
  - rewrite (no_amount_without 1578 (1578 :: _));
      [|in_list|apply Hfree; [in_list|not_in_list]].
    rewrite (no_amount_without 1740 (1585 :: _));
      [|in_list|apply Hfree; [in_list|not_in_list]].
    rewrite no_dollar_without by (apply Hfree; [in_list|not_in_list]).
    rewrite (search_amount 1583 _ eq_refl); try done.
    eapply marker_free_not; [|done]. in_list.
Qed.

(** The layout of a listing, for every currency: a literal of digits and
    commas with at least one digit at the marker of [c], in surroundings
    free of marker letters that do not continue the literal. *)
Lemma listing_amount_times_rate (c : currency) (pre w sp post : pystr) :
  marker_free pre -> marker_free post ->
  ends_outside_number pre -> starts_outside_number post ->
  Forall dc w -> Exists (fun x => is_decimal x = true) w -> gap sp ->
  exists n,
    digits_value 0 (replace_comma (translate digit_table w)) = Some n
    /\ extract (pre ++ listing c w sp ++ post)
       = Value (Some (mkReading (float_of_Z n) c
                        (float_mul_num (float_of_Z n) (rates c)))).
Proof.
  intros Hpre Hpost Hend Hstart Hw Hdigit Hsp.
  unfold extract. rewrite !translate_app, translate_listing by done.
  assert (Hw' : Forall dc (translate digit_table w)) by by apply translate_dc.
  assert (Hd' : Exists (fun x => is_decimal x = true) (translate digit_table w))
    by by apply translate_has_digit.
  rewrite extract_items_listing; try done.
  - destruct (on_match_outcome c _ Hw') as [[Hnil _]|(n & _ & _ & Hn & ->)].
    + by apply replace_comma_keeps_digit in Hd'.
    + by exists n.
  - by apply translate_marker_free.
  - by apply translate_marker_free.
  - by apply translate_ends.
  - by apply translate_starts.
  - intros E. rewrite E in Hd'. by apply Exists_nil in Hd'.
Qed.

(* ===================================================================== *)
(** * The pipeline: fetch, fan-in, report *)
(* ===================================================================== *)

Section Pipeline.
Variable w : world.

Lemma parse_cards_inv (P : product -> Prop) u cards acc ps :
  (forall nm pr cur host, P (mkProduct nm pr cur host (cps "Iran") u)) ->
  Forall P acc ->
  parse_cards u cards acc = Value ps ->
  Forall P ps.
Proof.
  intros HP. revert acc ps.
  induction cards as [|card cards IH]; intros acc ps Hacc H; simpl in H.
  - by inversion H; subst.
  - destruct (extract card) as [[r|]|e]; simpl in H; try discriminate.
    + destruct (split_on 47 u !! 2%nat) as [host|]; try discriminate.
      eapply IH; [|exact H].
      apply Forall_app; split; [done|]. by constructor.
    + by eapply IH.
Qed.

Lemma fetch_one_inv (P : product -> Prop) u term :
  (forall nm pr cur host, P (mkProduct nm pr cur host (cps "Iran") u)) ->
  Forall P (_fetch_one w u term).
Proof.
  intros HP. unfold _fetch_one.
  destruct (scrape w u) as [html|e]; simpl; [|constructor].
  destruct (select_cards w html) as [cards|e]; simpl; [|constructor].
  destruct (parse_cards u (take 5 cards) []) as [ps|e] eqn:E; [|constructor].
  eapply parse_cards_inv; [exact HP|constructor|exact E].
Qed.

Lemma fetch_one_scrape_fails u term e :
  scrape w u = Raise e -> _fetch_one w u term = [].
Proof. intros H. unfold _fetch_one. by rewrite H. Qed.

Lemma results_terms terms :
  map search_term (results (build_report w terms)) = terms.
Proof.
  unfold build_report; simpl. rewrite map_map; simpl. apply map_id.
Qed.

Lemma concat_skip_empty {A} (f : pystr -> list A) (u : pystr) us :
  f u = [] ->
  concat (map f us) = concat (map f (filter (fun u' => u' ≠ u) us)).
Proof.
  intros Hu. induction us as [|v us IH]; [done|].
  rewrite filter_cons. simpl. destruct (decide (v ≠ u)) as [Hv|Hv].
  - simpl. by rewrite IH.
  - apply dec_stable in Hv. subst v. by rewrite Hu, IH.
Qed.

Lemma gather_slots {A} (tasks : list A) order slots i :
  fold_left (fun sl j => <[j := tasks !! j]> sl) order slots !! i
  = if decide (i ∈ order)
    then (if decide (i < length slots)%nat then Some (tasks !! i) else None)
    else slots !! i.
Proof.
  revert slots. induction order as [|j order IH]; intros slots; cbn [fold_left].
  - destruct (decide (i ∈ [])); [set_solver|done].
  - rewrite IH, length_insert.
    destruct (decide (i ∈ order)) as [Hi|Hi];
      destruct (decide (i ∈ j :: order)) as [Hj|Hj]; try done.
    + exfalso. apply Hj, elem_of_cons. by right.
    + assert (i = j) by (apply elem_of_cons in Hj as [?|?]; done). subst i.
      destruct (decide (j < length slots)%nat) as [Hlt|Hge].
      * by apply list_lookup_insert_eq.
      * rewrite list_insert_ge; [|lia]. apply lookup_ge_None_2. lia.
    + apply list_lookup_insert_ne. intros ->. apply Hj, elem_of_cons. by left.
Qed.

(** Whatever the order in which the tasks complete, the slots hold the
    results in the order of the tasks. *)
Lemma gather_as_completed_order {A} (tasks : list A) order :
  order ≡ₚ seq 0 (length tasks) ->
  gather_as_completed order tasks = map Some (gather tasks).
Proof.
  intros Hperm. unfold gather_as_completed, gather.
  apply list_eq. intros i. rewrite gather_slots, length_replicate.
  rewrite list_lookup_fmap.
  destruct (decide (i < length tasks)%nat) as [Hlt|Hge].
  - rewrite decide_True.
    + destruct (lookup_lt_is_Some_2 tasks i Hlt) as [x Hx]. by rewrite Hx.
    + rewrite Hperm. apply elem_of_seq. lia.
  - rewrite (lookup_ge_None_2 tasks i) by lia. simpl.
    destruct (decide (i ∈ order)); [done|].
    apply lookup_ge_None_2. rewrite length_replicate. lia.
Qed.

End Pipeline.

(* ===================================================================== *)
(** * The task registry *)
(* ===================================================================== *)

Lemma cps_inj (a b : string) : cps a = cps b -> a = b.
Proof.
  revert b. induction a as [|x a IH]; intros [|y b] H; try discriminate; [done|].
  unfold cps in H; simpl in H. injection H as Hxy Hab.
  f_equal.
  - apply N2Z.inj in Hxy. rewrite <- (ascii_N_embedding x), <- (ascii_N_embedding y).
    by rewrite Hxy.
  - by apply IH.
Qed.

Lemma to_int_not_nil (n : Z) :
  Z.to_int n <> Decimal.Pos Decimal.Nil /\ Z.to_int n <> Decimal.Neg Decimal.Nil.
Proof.
  destruct n as [|q|q]; simpl; split; try discriminate; intros [= H];
    by apply (DecimalPos.Unsigned.to_uint_nonnil q).
Qed.

Lemma str_of_Z_inj (a b : Z) : str_of_Z a = str_of_Z b -> a = b.
Proof.
  intros H. apply cps_inj in H.
  apply DecimalZ.to_int_inj.
  destruct (to_int_not_nil a) as [Ha1 Ha2], (to_int_not_nil b) as [Hb1 Hb2].
  pose proof (NilZero.isi _ Ha1 Ha2) as Ia.
  pose proof (NilZero.isi _ Hb1 Hb2) as Ib.
  rewrite H in Ia. congruence.
Qed.

(** A submission that starts a thread registers, under the clock reading
    cut to whole seconds, a processing entry. *)
Lemma index_post_started (field : option pystr) (now : float) (st st' : store)
    (r : response) (t : thread) :
  index (POST field) now st = Value (r, st', Some t) ->
  exists n, py_int now = Value n
            /\ th_task_id t = str_of_Z n
            /\ st' = <[str_of_Z n := mkEntry (cps "processing") None None]> st.
Proof.
  unfold index. destruct (strip (default [] field)) as [|c raw]; [discriminate|].
  destruct (py_int now) as [n|e]; simpl; [|discriminate].
  intros [= <- <- <-]. by exists n.
Qed.

Lemma api_status_unknown (task_id : pystr) (st : store) :
  st !! task_id = None -> api_status task_id st = Json 404 (cps "not_found") None.
Proof. intros H. unfold api_status. by rewrite H. Qed.

Lemma api_status_known (task_id : pystr) (st : store) (e : entry) :
  st !! task_id = Some e -> api_status task_id st = Json 200 (cps "done") (Some e).
Proof. intros H. unfold api_status. by rewrite H. Qed.

(* ===================================================================== *)
(** * The claims *)
(* ===================================================================== *)

(** ** C1 *)

(** C1, on the code: [api_status] answers "not_found" for an identifier
    that is not in the registry and, for any identifier that is, the status
    "done" with the entry enclosed as the report, whatever the entry says.
    So right after a submission, while the entry is "processing", the
    status returned is "done"; it is "done" as well once the thread has
    recorded the task as failed. *)
Theorem status_is_done_whatever_the_entry :
  (forall (task_id : pystr) (st : store),
     match st !! task_id with
     | None => api_status task_id st = Json 404 (cps "not_found") None
     | Some e => api_status task_id st = Json 200 (cps "done") (Some e)
     end)
  /\ exists r st t,
       index (POST (Some (cps "laptop"))) quarter_past ∅ = Value (r, st, Some t)
       /\ st !! th_task_id t = Some (mkEntry (cps "processing") None None)
       /\ api_status (th_task_id t) st
          = Json 200 (cps "done") (Some (mkEntry (cps "processing") None None))
       /\ api_status (th_task_id t)
            (run_in_thread disk_full_world (th_terms t) (th_task_id t) st)
          = Json 200 (cps "done")
              (Some (mkEntry (cps "failed") None
                             (Some (cps "No space left on device")))).
Proof.
  split.
  - intros task_id st. unfold api_status. by destruct (st !! task_id).
  - do 3 eexists. split; [reflexivity|]. cbn [th_task_id th_terms].
    split; [apply lookup_insert_eq|].
    split; apply api_status_known, lookup_insert_eq.
Qed.

(** ** C2 *)

(** C2 fails: with a literal of commas only, [float] is given the empty
    string and [extract] raises. *)
Lemma comma_literal_raises :
  re_search (amount_then toman_unit) ([44; 32] ++ toman_unit) = Some [44]
  /\ py_float (replace_comma [44]) = Raise ValueError
  /\ extract ([44; 32] ++ toman_unit) = Raise ValueError.
Proof. repeat split; vm_compute; reflexivity. Qed.

(** C2, amended: [extract] returns none when no pattern of the table
    matches, and only then; when the literal of the deciding match holds a
    digit it returns a reading; it raises nothing but [ValueError], and only
    on a literal made of commas alone. *)
Theorem extract_none_iff_no_match (text : pystr) :
  let t := translate digit_table text in
  (extract text = Value None
   <-> forall c pats pat,
         (c, pats) ∈ patterns -> pat ∈ pats -> re_search pat t = None)
  /\ (forall c g,
        first_match patterns t = Some (c, g) ->
        Exists (fun x => is_decimal x = true) g ->
        exists r, extract text = Value (Some r) /\ rd_currency r = c)
  /\ (forall e,
        extract text = Raise e ->
        e = ValueError
        /\ exists c pats pat g,
             (c, pats) ∈ patterns /\ pat ∈ pats /\ re_search pat t = Some g
             /\ Forall (fun x => x = 44) g).
Proof.
  intros t. unfold extract. fold t. rewrite extract_items_first_match.
  destruct (first_match patterns t) as [[c g]|] eqn:E.
  - destruct (first_match_in_table _ _ _ E) as (pats & pat & Hc & Hpat & Hg & Hdc & _).
    destruct (on_match_outcome c g Hdc) as [[Hnil ->]|(n & _ & Hne & _ & ->)].
    + split; [|split].
      * split; [discriminate|]. intros H. by rewrite (H c pats pat) in Hg.
      * intros c' g' [= <- <-] Hd. by apply replace_comma_keeps_digit in Hd.
      * intros e [= <-]. split; [done|].
        exists c, pats, pat, g. repeat split; try done. by apply replace_comma_nil.
    + split; [|split].
      * split; [discriminate|]. intros H. by rewrite (H c pats pat) in Hg.
      * intros c' g' [= <- <-] _. by eexists.
      * discriminate.
  - split; [|split].
    + split; [|done]. intros _. by apply first_match_None.
    + discriminate.
    + discriminate.
Qed.

(** ** C3 *)

(** C3 fails: two submissions within one second get the same identifier,
    and the second leaves the registry as the first left it: one entry for
    two batches. *)
Lemma two_submissions_one_id :
  exists r1 r2 st1 st2 t1 t2,
    index (POST (Some (cps "laptop"))) quarter_past ∅ = Value (r1, st1, Some t1)
    /\ index (POST (Some (cps "phone"))) quarter_to st1 = Value (r2, st2, Some t2)
    /\ quarter_past <> quarter_to
    /\ th_terms t1 <> th_terms t2
    /\ th_task_id t1 = th_task_id t2
    /\ st2 = st1.
Proof.
  do 6 eexists. split; [reflexivity|]. split; [reflexivity|].
  split; [discriminate|]. split; [discriminate|]. split; [reflexivity|].
  apply insert_insert_eq.
Qed.

(** C3, amended: the identifier of a submission is [str(int(now))], the
    decimal string of the clock reading cut to whole seconds, and the
    submission registers its processing entry under it; so two submissions
    get different identifiers exactly when their readings lie in different
    seconds. *)
Theorem task_id_is_whole_second (f1 f2 : option pystr) (now1 now2 : float)
    (st st1 st2 : store) (r1 r2 : response) (t1 t2 : thread) :
  index (POST f1) now1 st = Value (r1, st1, Some t1) ->
  index (POST f2) now2 st1 = Value (r2, st2, Some t2) ->
  exists n1 n2,
    py_int now1 = Value n1 /\ py_int now2 = Value n2
    /\ th_task_id t1 = str_of_Z n1 /\ th_task_id t2 = str_of_Z n2
    /\ st1 = <[str_of_Z n1 := mkEntry (cps "processing") None None]> st
    /\ st2 = <[str_of_Z n2 := mkEntry (cps "processing") None None]> st1
    /\ (th_task_id t1 <> th_task_id t2 <-> n1 <> n2)
    /\ (th_task_id t1 <> th_task_id t2 <-> py_int now1 <> py_int now2).
Proof.
  intros H1 H2.
  apply index_post_started in H1 as (n1 & Hn1 & Hid1 & Hst1).
  apply index_post_started in H2 as (n2 & Hn2 & Hid2 & Hst2).
  exists n1, n2. repeat split; try done.
  - intros H E. apply H. rewrite Hid1, Hid2. by rewrite E.
  - intros H E. apply H. rewrite Hid1, Hid2 in E. by apply str_of_Z_inj.
  - intros H E. apply H. rewrite Hid1, Hid2. rewrite Hn1, Hn2 in E.
    by injection E as ->.
  - intros H E. apply H. rewrite Hn1, Hn2. f_equal.
    rewrite Hid1, Hid2 in E. by apply str_of_Z_inj.
Qed.

Lemma task_id_is_whole_second_witness :
  exists n1 n2,
    py_int quarter_past = Value n1 /\ py_int (float_of_Z 1700000001) = Value n2
    /\ str_of_Z 1700000000 = str_of_Z n1 /\ str_of_Z 1700000001 = str_of_Z n2
    /\ <[str_of_Z 1700000000 := mkEntry (cps "processing") None None]> ∅
       = <[str_of_Z n1 := mkEntry (cps "processing") None None]> (∅ : store)
    /\ <[str_of_Z 1700000001 := mkEntry (cps "processing") None None]>
         (<[str_of_Z 1700000000 := mkEntry (cps "processing") None None]> ∅)
       = <[str_of_Z n2 := mkEntry (cps "processing") None None]>
           (<[str_of_Z 1700000000 := mkEntry (cps "processing") None None]> (∅ : store))
    /\ (str_of_Z 1700000000 <> str_of_Z 1700000001 <-> n1 <> n2)
    /\ (str_of_Z 1700000000 <> str_of_Z 1700000001
        <-> py_int quarter_past <> py_int (float_of_Z 1700000001)).
Proof.
  exact (task_id_is_whole_second (Some (cps "laptop")) (Some (cps "phone"))
    quarter_past (float_of_Z 1700000001) ∅ _ _ _ _
    (mkThread [cps "laptop"] (str_of_Z 1700000000))
    (mkThread [cps "phone"] (str_of_Z 1700000001)) eq_refl eq_refl).
Defined.

(** ** C4 *)

(** C4: when the fetch of one source of a term fails, [_fetch_one] gives
    the empty list for it; the products of the term are those of the other
    sources, none comes from the failed one; and the batch, once its
    spreadsheet is written, is recorded as done. *)
Theorem failed_source_is_dropped (w : world) (terms : list pystr)
    (term u task_id path : pystr) (e : exn) (results_store : store) :
  u ∈ urls term ->
  scrape w u = Raise e ->
  save_excel w (build_report w terms) = Value path ->
  _fetch_one w u term = []
  /\ products (search_one w term)
     = concat (map (fun u' => _fetch_one w u' term)
                   (filter (fun u' => u' ≠ u) (urls term)))
  /\ Forall (fun p => url p ∈ urls term /\ url p ≠ u) (products (search_one w term))
  /\ run_in_thread w terms task_id results_store !! task_id
     = Some (mkEntry (cps "done") (Some path) None).
Proof.
  intros Hu Hfail Hexport.
  assert (Hempty : _fetch_one w u term = []) by by eapply fetch_one_scrape_fails.
  assert (Hprod : products (search_one w term)
     = concat (map (fun u' => _fetch_one w u' term)
                   (filter (fun u' => u' ≠ u) (urls term)))).
  { unfold search_one, gather. cbn [products]. by apply concat_skip_empty. }
  repeat split; [done|done| |].
  - rewrite Hprod. apply Forall_concat, Forall_map, Forall_forall.
    intros u' Hu'. apply list_elem_of_filter in Hu' as [Hne Hin].
    eapply Forall_impl; [apply (fetch_one_inv w (fetched_from u'))|].
    + done.
    + intros p Hp. unfold fetched_from in Hp. by rewrite Hp.
  - unfold run_in_thread, search. rewrite Hexport. apply lookup_insert_eq.
Qed.

Lemma failed_source_is_dropped_witness :
  products (search_one demo_world (cps "A54"))
  = concat (map (fun u' => _fetch_one demo_world u' (cps "A54"))
                (filter (fun u' => u' ≠ cps "https://divar.ir/s/tehran?q=A54")
                        (urls (cps "A54")))).
Proof.
  refine (proj1 (proj2
    (failed_source_is_dropped demo_world [cps "A54"] (cps "A54")
       (cps "https://divar.ir/s/tehran?q=A54") (cps "1700000000")
       (cps "price_report.xlsx") (RuntimeFault (cps "timeout")) ∅ _ _ _))).
  - vm_compute. right. left.
  - reflexivity.
  - reflexivity.
Defined.

(** ** C5 *)

(** C5: the report of a batch of N terms has N entries, the i-th being the
    result of the i-th term; its total is the sum of the entries' product
    counts; and in whatever order the three fetches of a term complete, the
    fan-in hands over the per-source lists in the order of the sources. *)
Theorem report_follows_terms (w : world) (terms : list pystr) (order : list nat) :
  order ≡ₚ [0; 1; 2]%nat ->
  let rep := build_report w terms in
  length (results rep) = length terms
  /\ map search_term (results rep) = terms
  /\ summary_total rep
     = sum_Z (map (fun r => Z.of_nat (length (products r))) (results rep))
  /\ Forall (fun r =>
       fan_in w order (search_term r)
       = map (fun u => Some (_fetch_one w u (search_term r))) (urls (search_term r))
       /\ products r
          = concat (map (fun u => _fetch_one w u (search_term r))
                        (urls (search_term r))))
       (results rep).
Proof.
  intros Hperm rep. repeat split.
  - unfold rep, build_report; simpl. apply length_map.
  - apply results_terms.
  - unfold rep, build_report; simpl. apply Forall_map, Forall_forall.
    intros t _. simpl. split; [|done].
    unfold fan_in. rewrite gather_as_completed_order; [|done].
    unfold gather. by rewrite map_map.
Qed.

Lemma report_follows_terms_witness :
  [2; 0; 1]%nat ≡ₚ [0; 1; 2]%nat
  /\ map search_term
       (results (build_report demo_world [cps "A54"; cps "ThinkPad"]))
     = [cps "A54"; cps "ThinkPad"].
Proof.
  assert (Hp : [2; 0; 1]%nat ≡ₚ [0; 1; 2]%nat).
  { etrans; [apply Permutation_swap|]. symmetry.
    etrans; [|apply perm_skip, Permutation_swap]. done. }
  split; [exact Hp|].
  exact (proj1 (proj2
    (report_follows_terms demo_world [cps "A54"; cps "ThinkPad"] [2; 0; 1]%nat Hp))).
Defined.

(** ** C6 *)

(** C6: on no products the analysis is [{"total": 0}] and nothing else (no
    min, max, mean or median, and no reduction of an empty column); on
    products priced 10, 20 and 30 it is total 3, min 10, max 30, mean 20,
    median 20. *)
Theorem analysis_of_empty_and_10_20_30 (ps : list product) :
  map price ps = [float_of_Z 10; float_of_Z 20; float_of_Z 30] ->
  run [] = mkAnalysis 0 None None None None
  /\ run ps = mkAnalysis 3 (Some (float_of_Z 10)) (Some (float_of_Z 30))
                           (Some (float_of_Z 20)) (Some (float_of_Z 20)).
Proof.
  intros Hps. split; [reflexivity|].
  unfold run. destruct ps as [|p ps']; [discriminate|].
  rewrite Hps. vm_compute. reflexivity.
Qed.

Lemma analysis_of_empty_and_10_20_30_witness :
  run (map (fun x => mkProduct [] (float_of_Z x) [] [] (cps "Iran") []) [10; 20; 30])
  = mkAnalysis 3 (Some (float_of_Z 10)) (Some (float_of_Z 30))
                 (Some (float_of_Z 20)) (Some (float_of_Z 20)).
Proof.
  apply (analysis_of_empty_and_10_20_30
    (map (fun x => mkProduct [] (float_of_Z x) [] [] (cps "Iran") []) [10; 20; 30])).
  reflexivity.
Defined.

(** ** C7 *)

(** C7: in a text with exactly one recognized marker (the pattern of the
    currency [c] matches, with the literal [g] as its group, and the
    pattern of no other currency matches anywhere), where the literal holds
    a digit, [extract] reads the literal without its commas as a number [n]
    and returns the amount [float(n)] with the price [float(n) * rates[c]].
    The rate of the toman is 1 and "15,000,000" with the toman marker gives
    15,000,000; the rate of the dollar is 55,000 and "500" with the dollar
    marker gives 27,500,000. *)
Theorem one_marker_amount_times_rate (text : pystr) (c : currency)
    (pats : list regex) (pat : regex) (g : pystr) :
  (c, pats) ∈ patterns -> pat ∈ pats ->
  re_search pat (translate digit_table text) = Some g ->
  (forall c' pats' pat',
     (c', pats') ∈ patterns -> pat' ∈ pats' -> c' <> c ->
     re_search pat' (translate digit_table text) = None) ->
  Exists (fun x => is_decimal x = true) g ->
  (exists n,
     digits_value 0 (replace_comma g) = Some n
     /\ extract text
        = Value (Some (mkReading (float_of_Z n) c
                         (float_mul_num (float_of_Z n) (rates c)))))
  /\ rates toman = PInt 1
  /\ extract (cps "15,000,000 " ++ toman_unit)
     = Value (Some (mkReading (float_of_Z 15000000) toman (float_of_Z 15000000)))
  /\ rates dollar = PInt 55000
  /\ extract (cps "$500")
     = Value (Some (mkReading (float_of_Z 500) dollar (float_of_Z 27500000))).
Proof.
  intros Hc Hpat Hg Hother Hdigit.
  split; [|repeat split; vm_compute; reflexivity].
  unfold extract. rewrite extract_items_first_match.
  destruct (first_match patterns _) as [[c0 g0]|] eqn:E.
  - destruct (first_match_in_table _ _ _ E) as (pats0 & pat0 & Hc0 & Hpat0 & Hg0 & _).
    destruct (decide (c0 = c)) as [->|Hne];
      [|by rewrite (Hother c0 pats0 pat0 Hc0 Hpat0 Hne) in Hg0].
    rewrite (patterns_key c pats0 pats pat0 pat Hc0 Hc Hpat0 Hpat) in Hg0.
    assert (g0 = g) as -> by congruence.
    destruct (pattern_group c pats pat _ g Hc Hpat Hg) as [Hdc _].
    destruct (on_match_outcome c g Hdc) as [[Hnil _]|(n & _ & _ & Hn & ->)].
    + by apply replace_comma_keeps_digit in Hdigit.
    + by exists n.
  - rewrite (proj1 (first_match_None _ _) E c pats pat Hc Hpat) in Hg. discriminate.
Qed.

(** A rial listing after a Persian word (U+0642 U+06CC U+0645 U+062A). *)
Lemma one_marker_amount_times_rate_witness :
  exists n,
    digits_value 0 (replace_comma (cps "5,000")) = Some n
    /\ extract ([1602; 1740; 1605; 1578; 32] ++ cps "5,000 " ++ rial_unit)
       = Value (Some (mkReading (float_of_Z n) rial
                        (float_mul_num (float_of_Z n) (rates rial)))).
Proof.
  refine (proj1 (one_marker_amount_times_rate
    ([1602; 1740; 1605; 1578; 32] ++ cps "5,000 " ++ rial_unit)
    rial [amount_then rial_unit] (amount_then rial_unit) (cps "5,000") _ _ _ _ _)).
  - unfold patterns. apply elem_of_cons. right. apply elem_of_cons. by left.
  - apply elem_of_cons. by left.
  - vm_compute. reflexivity.
  - intros c' pats' pat' Hc Hpat Hne. unfold patterns in Hc.
    repeat (apply elem_of_cons in Hc as [[= -> ->]|Hc];
            [apply list_elem_of_singleton in Hpat as ->;
             first [by destruct Hne | vm_compute; reflexivity]|]).
    by apply elem_of_nil in Hc.
  - apply Exists_cons. left. reflexivity.
Defined.

(** ** C8 *)



(** ** C9 *)

(** C9: every product [_fetch_one] builds, for any URL (amazon.com
    included), any page and any listing, has the country "Iran"; so has
    every product of every term of a report. *)
Theorem country_always_iran (w : world) (u term : pystr) (terms : list pystr) :
  Forall from_iran (_fetch_one w u term)
  /\ Forall (fun r => Forall from_iran (products r)) (results (build_report w terms)).
Proof.
  split.
  - by apply fetch_one_inv.
  - unfold build_report; simpl. apply Forall_map, Forall_forall.
    intros t _. unfold search_one, gather; simpl.
    repeat (apply Forall_app; split); try constructor; by apply fetch_one_inv.
Qed.

(** An amazon.com listing is among them. *)
Example amazon_listing_from_iran :
  exists p, p ∈ products (search_one demo_world (cps "A54"))
            /\ website p = cps "www.amazon.com" /\ country p = cps "Iran".
Proof.
  eexists. split; [|split].
  - vm_compute. do 1 right. left.
  - reflexivity.
  - reflexivity.
Qed.

(** ** C10 *)

(** C10: a reading returned by [extract] comes from a literal of digits
    and commas only; its amount is the float of a natural number, its price
    that amount times the rate of its currency, and both are floats with
    [0 <= x]. *)
Theorem reading_is_nonnegative (text : pystr) (r : reading) :
  extract text = Value (Some r) ->
  float_nonneg (original r) = true
  /\ float_nonneg (rd_toman r) = true
  /\ exists g n,
       Forall dc g /\ digits_value 0 (replace_comma g) = Some n /\ 0 <= n
       /\ original r = float_of_Z n
       /\ rd_toman r = float_mul_num (original r) (rates (rd_currency r)).
Proof.
  unfold extract. rewrite extract_items_first_match.
  destruct (first_match patterns _) as [[c g]|] eqn:E; [|discriminate].
  destruct (first_match_in_table _ _ _ E) as (pats & pat & _ & _ & _ & Hdc & _).
  destruct (on_match_outcome c g Hdc) as [[_ ->]|(n & Hn & _ & Hv & ->)];
    [discriminate|].
  intros [= <-]. cbn [original rd_toman rd_currency].
  pose proof (float_of_Z_signless n Hn) as Hsig.
  repeat split.
  - by apply signless_nonneg.
  - by apply signless_nonneg, rates_positive.
  - by exists g, n.
Qed.

Lemma reading_is_nonnegative_witness :
  extract (cps "$500") = Value (Some (mkReading (float_of_Z 500) dollar
                                        (float_of_Z 27500000)))
  /\ float_nonneg (float_of_Z 500) = true
  /\ float_nonneg (float_of_Z 27500000) = true.
Proof.
  assert (H : extract (cps "$500")
              = Value (Some (mkReading (float_of_Z 500) dollar (float_of_Z 27500000))))
    by (vm_compute; reflexivity).
  split; [exact H|].
  destruct (reading_is_nonnegative _ _ H) as (H1 & H2 & _).
  split; [exact H1|exact H2].
Defined.

(* ===================================================================== *)
(** * Further properties: the extractor *)
(* ===================================================================== *)

Lemma digit_table_keys x y : table_get digit_table x = Some y -> 1632 <= x.
Proof.
  unfold digit_table, maketrans.
  set (t := combine _ _). vm_compute in t. subst t. cbn [table_get].
  repeat match goal with
         | |- context [x =? ?k] =>
             destruct (Z.eqb_spec x k) as [->|_]; [intros _; lia|]
         end.
  discriminate.
Qed.

Lemma translate_idempotent text :
  translate digit_table (translate digit_table text) = translate digit_table text.
Proof.
  unfold translate. rewrite map_map. apply map_ext. intros x.
  destruct (table_get digit_table x) as [y|] eqn:E; [|by rewrite E].
  destruct (table_get digit_table y) as [z|] eqn:E'; [|done].
  apply digit_table_sound in E as (_ & _ & _ & Hy).
  apply digit_table_keys in E'. lia.
Qed.

(** X1: the digits are normalised before anything else, and normalising
    twice changes nothing: a text and its copy with every Persian and
    Arabic-Indic digit replaced by the ASCII digit of the same value have
    the same outcome. *)
Theorem extract_of_normalised_text (text : pystr) :
  extract (translate digit_table text) = extract text.
Proof. unfold extract. by rewrite translate_idempotent. Qed.

(** A match of any pattern of the table starts at a digit or a comma of
    the text. *)
Lemma pattern_needs_dc c pats pat text g :
  (c, pats) ∈ patterns -> pat ∈ pats ->
  re_search pat text = Some g ->
  exists x, x ∈ text /\ dc x.
Proof.
  intros Hc Hpat Hs.
  apply re_search_suffix in Hs as (before & s & -> & Hm).
  assert (Hcases : (exists u, pat = amount_then u) \/ pat = dollar_pattern).
  { unfold patterns in Hc.
    repeat (apply elem_of_cons in Hc as [[= -> ->]|Hc];
            [apply list_elem_of_singleton in Hpat as ->; eauto|]).
    by apply elem_of_nil in Hc. }
  assert (Hrun : forall k s0 acc,
            plus_loop digit_or_comma true k s0 acc = Some g ->
            exists x, x ∈ s0 /\ dc x).
  { intros k s0 acc H.
    apply plus_loop_sound in H as (run & rest & -> & Hne & Hrun & _).
    destruct run as [|x run]; [done|]. apply Forall_cons in Hrun as [Hx _].
    exists x. split; [|done]. apply elem_of_app. left. apply elem_of_cons. by left. }
  destruct Hcases as [[u ->]| ->].
  - rewrite match_amount_then in Hm. destruct (Hrun _ _ _ Hm) as (x & Hx & Hd).
    exists x. split; [|done]. apply elem_of_app. by right.
  - rewrite match_dollar in Hm. destruct s as [|y s]; [discriminate|].
    destruct (y =? 36); [|discriminate]. destruct (Hrun _ _ _ Hm) as (x & Hx & Hd).
    exists x. split; [|done]. apply elem_of_app. right. apply elem_of_cons. by right.
Qed.

(** A match of any pattern of the table shows a marker letter in the
    text. *)
Lemma pattern_needs_marker c pats pat text g :
  (c, pats) ∈ patterns -> pat ∈ pats ->
  re_search pat text = Some g ->
  exists x, x ∈ text /\ x ∈ marker_letters.
Proof.
  intros Hc Hpat Hs. unfold patterns in Hc.
  repeat (apply elem_of_cons in Hc as [[= -> ->]|Hc];
          [apply list_elem_of_singleton in Hpat as ->|]);
    [| | | |by apply elem_of_nil in Hc].
  - exists 1578. split; [eapply amount_needs_unit; [done|]|]; in_list.
  - exists 1585. split; [eapply amount_needs_unit; [done|]|]; in_list.
  - exists 36. split; [by eapply dollar_needs_sign|in_list].
  - exists 1583. split; [eapply amount_needs_unit; [done|]|]; in_list.
Qed.

Lemma translate_keeps_outside text :
  Forall (fun x => in_cset digit_or_comma x = false) text ->
  translate digit_table text = text.
Proof.
  intros H. unfold translate. induction H as [|x text Hx _ IH]; [done|].
  cbn [map]. rewrite IH. f_equal. by apply translate_non_digit, not_dc_not_decimal.
Qed.

(** X2: a text with no digit and no comma, or with none of the marker
    letters ([$] and the letters of the unit tokens), has no price:
    [extract] returns none. *)
Theorem extract_none_without_number_or_marker (text : pystr) :
  Forall (fun x => in_cset digit_or_comma x = false) text \/ marker_free text ->
  extract text = Value None.
Proof.
  intros H. unfold extract. rewrite extract_items_first_match.
  destruct (first_match patterns _) as [[c g]|] eqn:E; [|done].
  exfalso. destruct (first_match_in_table _ _ _ E) as (pats & pat & Hc & Hpat & Hs & _).
  destruct H as [H|H].
  - rewrite translate_keeps_outside in Hs by done.
    destruct (pattern_needs_dc _ _ _ _ _ Hc Hpat Hs) as (x & Hx & Hd).
    rewrite Forall_forall in H. specialize (H x Hx). unfold dc in Hd. congruence.
  - destruct (pattern_needs_marker _ _ _ _ _ Hc Hpat Hs) as (x & Hx & Hm).
    by apply (marker_free_elem x (translate digit_table text));
      [apply translate_marker_free| |].
Qed.

Lemma extract_none_without_number_or_marker_witness :
  extract (cps "Galaxy A54 - call for price") = Value None.
Proof.
  apply extract_none_without_number_or_marker. right.
  apply (bool_decide_unpack _). vm_compute. exact I.
Defined.

Lemma translate_avoids l text :
  l ∈ marker_letters -> Forall (fun x => x ≠ l) text ->
  Forall (fun x => x ≠ l) (translate digit_table text).
Proof.
  intros Hl H. apply Forall_map. eapply Forall_impl; [exact H|].
  intros x Hx. cbv beta delta [compose].
  destruct (table_get digit_table x) as [y|] eqn:E; [|done].
  apply digit_table_sound in E as (_ & Hy & _). intros ->.
  apply marker_letter_class in Hl as (_ & _ & Hl). congruence.
Qed.

(** X3: the toman pattern is tried first and searched from the left: when
    the first toman listing of a text stands after a prefix without the
    first letter of the toman unit, that listing is the reading, whatever
    the prefix holds of other currencies and whatever follows. *)
Theorem first_toman_listing_wins (pre w sp post : pystr) :
  Forall (fun x => x ≠ 1578) pre -> ends_outside_number pre ->
  Forall dc w -> Exists (fun x => is_decimal x = true) w -> gap sp ->
  exists n,
    digits_value 0 (replace_comma (translate digit_table w)) = Some n
    /\ extract (pre ++ w ++ sp ++ toman_unit ++ post)
       = Value (Some (mkReading (float_of_Z n) toman
                        (float_mul_num (float_of_Z n) (rates toman)))).
Proof.
  intros Hpre Hend Hw Hdigit Hsp.
  assert (Hw' : Forall dc (translate digit_table w)) by by apply translate_dc.
  assert (Hd' : Exists (fun x => is_decimal x = true) (translate digit_table w))
    by by apply translate_has_digit.
  unfold extract. rewrite !translate_app, (translate_gap sp Hsp).
  change (translate digit_table toman_unit) with toman_unit.
  unfold patterns, toman_unit. cbn [extract_items extract_pats].
  rewrite (search_amount 1578 _ eq_refl).
  - destruct (on_match_outcome toman _ Hw') as [[Hnil _]|(n & _ & _ & Hn & ->)].
    + by apply replace_comma_keeps_digit in Hd'.
    + by exists n.
  - apply translate_avoids; [in_list|done].
  - by apply translate_ends.
  - intros E. rewrite E in Hd'. by apply Exists_nil in Hd'.
  - done.
  - done.
Qed.

Lemma first_toman_listing_wins_witness :
  exists n,
    digits_value 0 (replace_comma (translate digit_table (cps "10"))) = Some n
    /\ extract (cps "$5 " ++ cps "10" ++ [32] ++ toman_unit
                ++ cps " 20 " ++ toman_unit)
       = Value (Some (mkReading (float_of_Z n) toman
                        (float_mul_num (float_of_Z n) (rates toman)))).
Proof.
  apply (first_toman_listing_wins (cps "$5 ") (cps "10") [32]
           (cps " 20 " ++ toman_unit)).
  - apply (bool_decide_unpack _). vm_compute. exact I.
  - reflexivity.
  - repeat constructor.
  - apply Exists_cons. left. reflexivity.
  - right. exists 32. split; reflexivity.
Defined.

Section TwoSpaces.
Variables (h : Z) (u' : pystr).
Hypothesis h_outside : in_cset digit_or_comma h = false.
Hypothesis h_no_space : is_space h = false.
Hypothesis h_once : h ∉ u'.

(** Where the first character is no digit and no comma, the pattern does
    not match. *)
Lemma amount_skip_outside (u : pystr) (x : Z) (s : pystr) :
  in_cset digit_or_comma x = false ->
  re_search (amount_then u) (x :: s) = re_search (amount_then u) s.
Proof.
  intros Hx. cbn [re_search]. rewrite match_amount_then. cbn [plus_loop].
  by rewrite Hx.
Qed.

(** Two characters that are neither of the literal nor the first letter
    of the unit, between the literal and what follows: no match starts
    before them. *)
Lemma no_amount_before_two (b : pystr) (s1 s2 : Z) (tl acc : pystr) :
  Forall (fun x => x ≠ h) b ->
  in_cset digit_or_comma s1 = false -> s1 ≠ h -> s2 ≠ h ->
  plus_loop digit_or_comma true
    (fun s' a => if tail_ok (h :: u') s' then Some (rev a) else None)
    (b ++ s1 :: s2 :: tl) acc = None.
Proof.
  intros Hb Hs1 Hh1 Hh2. revert acc.
  induction Hb as [|x b Hx Hb IH]; intros acc; cbn [app plus_loop push].
  - by rewrite Hs1.
  - destruct (in_cset digit_or_comma x); [|done]. rewrite IH.
    assert (tail_ok (h :: u') (b ++ s1 :: s2 :: tl) = false) as ->; [|done].
    destruct b as [|y b']; cbn [app tail_ok starts_with].
    + rewrite (proj2 (Z.eqb_neq s2 h) Hh2), (proj2 (Z.eqb_neq s1 h) Hh1).
      by rewrite andb_false_r.
    + apply Forall_cons in Hb as [Hy Hb'].
      rewrite (proj2 (Z.eqb_neq y h) Hy), andb_false_l, orb_false_r.
      apply andb_false_iff. right.
      destruct b' as [|z b'']; cbn [app starts_with].
      * by rewrite (proj2 (Z.eqb_neq s1 h) Hh1).
      * apply Forall_cons in Hb' as [Hz _]. by rewrite (proj2 (Z.eqb_neq z h) Hz).
Qed.

Lemma search_amount_two_spaces (b : pystr) (s1 s2 : Z) (post : pystr) :
  Forall (fun x => x ≠ h) b -> h ∉ post ->
  is_space s1 = true -> is_space s2 = true ->
  re_search (amount_then (h :: u')) (b ++ [s1; s2] ++ (h :: u') ++ post) = None.
Proof.
  intros Hb Hpost Hs1 Hs2.
  assert (Hd1 : in_cset digit_or_comma s1 = false) by by apply space_not_dc.
  assert (Hd2 : in_cset digit_or_comma s2 = false) by by apply space_not_dc.
  assert (Hh1 : s1 ≠ h) by (intros ->; congruence).
  assert (Hh2 : s2 ≠ h) by (intros ->; congruence).
  cbn [app]. rewrite re_search_skip.
  - rewrite !amount_skip_outside by done.
    apply (no_amount_without h); [apply elem_of_cons; by left|].
    rewrite elem_of_app. by intros [?|?].
  - intros b1 b2 -> Hb2. rewrite match_amount_then.
    apply Forall_app in Hb as [_ Hb]. by apply no_amount_before_two.
Qed.

End TwoSpaces.

Lemma letter_absent_two (l s1 s2 : Z) (pre w unit post : pystr) :
  l ∈ marker_letters -> l ∉ unit ->
  marker_free pre -> Forall dc w -> is_space s1 = true -> is_space s2 = true ->
  marker_free post ->
  l ∉ pre ++ w ++ [s1; s2] ++ unit ++ post.
Proof.
  intros Hl Hunit Hpre Hw Hs1 Hs2 Hpost.
  destruct (marker_letter_class l Hl) as (Hdc & Hspace & _).
  rewrite !elem_of_app. intros [H|[H|[H|[H|H]]]].
  - by apply (marker_free_elem l pre).
  - rewrite Forall_forall in Hw. specialize (Hw l H). unfold dc in Hw. congruence.
  - apply elem_of_cons in H as [->|H]; [congruence|].
    apply list_elem_of_singleton in H as ->. congruence.
  - done.
  - by apply (marker_free_elem l post).
Qed.

Lemma avoid_letter (l : Z) (pre w : pystr) :
  l ∈ marker_letters -> marker_free pre -> Forall dc w ->
  Forall (fun x => x ≠ l) (pre ++ w).
Proof.
  intros Hl Hpre Hw. apply Forall_app. split.
  - by eapply marker_free_not.
  - eapply Forall_impl; [exact Hw|]. intros x Hx ->.
    apply marker_letter_class in Hl as (Hl & _). unfold dc in Hx. congruence.
Qed.

(** X18: the patterns allow one space at most between the number and the
    unit token. With two spaces there, in a text with no other marker,
    [extract] finds no price. *)
Theorem two_spaces_hide_the_price (c : currency) (pre w post : pystr) (s1 s2 : Z) :
  c <> dollar ->
  marker_free pre -> marker_free post -> Forall dc w ->
  is_space s1 = true -> is_space s2 = true ->
  extract (pre ++ listing c w [s1; s2] ++ post) = Value None.
Proof.
  intros Hc Hpre Hpost Hw Hs1 Hs2.
  assert (Hw' : Forall dc (translate digit_table w)) by by apply translate_dc.
  assert (Hpre' := translate_marker_free pre Hpre).
  assert (Hpost' := translate_marker_free post Hpost).
  assert (Hsp : translate digit_table [s1; s2] = [s1; s2]).
  { apply translate_keeps_outside. repeat constructor; by apply space_not_dc. }
  assert (Hfree : forall l unit, l ∈ marker_letters -> l ∉ unit ->
            l ∉ translate digit_table pre ++ translate digit_table w
                ++ [s1; s2] ++ unit ++ translate digit_table post).
  { intros l unit Hl Hunit. by apply letter_absent_two. }
  unfold extract. destruct c; [| |done|]; cbn [listing];
    rewrite !translate_app, Hsp;
    unfold patterns, toman_unit, rial_unit, dirham_unit;
    cbn [extract_items extract_pats];
    change (translate digit_table (?a :: ?b)) with (a :: b);
    rewrite <- ?app_assoc.
  - rewrite (app_assoc (translate digit_table pre)).
    rewrite (search_amount_two_spaces 1578); try done.
    + rewrite <- app_assoc.
      rewrite (no_amount_without 1740 (1585 :: _));
        [|in_list|apply Hfree; [in_list|not_in_list]].
      rewrite no_dollar_without by (apply Hfree; [in_list|not_in_list]).
      by rewrite (no_amount_without 1583 (1583 :: _));
        [|in_list|apply Hfree; [in_list|not_in_list]].
    + not_in_list.
    + apply avoid_letter; [in_list|done|done].
    + intros H. apply (marker_free_elem 1578 _ Hpost' H). in_list.
  - rewrite (no_amount_without 1578 (1578 :: _));
      [|in_list|apply Hfree; [in_list|not_in_list]].
    rewrite (app_assoc (translate digit_table pre)).
    rewrite (search_amount_two_spaces 1585); try done.
    + rewrite <- app_assoc.
      rewrite no_dollar_without by (apply Hfree; [in_list|not_in_list]).
      by rewrite (no_amount_without 1583 (1583 :: _));
        [|in_list|apply Hfree; [in_list|not_in_list]].
    + not_in_list.
    + apply avoid_letter; [in_list|done|done].
    + intros H. apply (marker_free_elem 1585 _ Hpost' H). in_list.
  - rewrite (no_amount_without 1578 (1578 :: _));
      [|in_list|apply Hfree; [in_list|not_in_list]].
    rewrite (no_amount_without 1740 (1585 :: _));
      [|in_list|apply Hfree; [in_list|not_in_list]].
    rewrite no_dollar_without by (apply Hfree; [in_list|not_in_list]).
    rewrite (app_assoc (translate digit_table pre)).
    rewrite (search_amount_two_spaces 1583); try done.
    + not_in_list.
    + apply avoid_letter; [in_list|done|done].
    + intros H. apply (marker_free_elem 1583 _ Hpost' H). in_list.
Qed.

Lemma two_spaces_hide_the_price_witness :
  extract (cps "A54 " ++ listing toman (cps "15,000,000") [32; 32] ++ []) = Value None.
Proof.
  apply (two_spaces_hide_the_price toman (cps "A54 ") (cps "15,000,000") [] 32 32).
  - discriminate.
  - apply (bool_decide_unpack _). vm_compute. exact I.
  - constructor.
  - repeat constructor.
  - reflexivity.
  - reflexivity.
Defined.

(* ===================================================================== *)
(** * Further properties: fetching and parsing *)
(* ===================================================================== *)

(** The loop over the cards, when the URL has a host and no card makes
    [extract] raise: the cards with a price, in their order. *)
Lemma parse_cards_value (u host : pystr) (cards : list pystr) (acc : list product) :
  split_on 47 u !! 2%nat = Some host ->
  Forall (fun card => forall e, extract card <> Raise e) cards ->
  parse_cards u cards acc = Value (acc ++ omap (card_product u host) cards).
Proof.
  intros Hhost H. revert acc. induction H as [|card cards Hcard _ IH]; intros acc.
  - by rewrite app_nil_r.
  - cbn [parse_cards omap list_omap]. unfold card_product at 1.
    destruct (extract card) as [[r|]|e] eqn:E; cbn [mbind result_bind].
    + rewrite Hhost, IH, <- app_assoc. done.
    + apply IH.
    + by destruct (Hcard e).
Qed.

(** A card on which [extract] raises ends the loop with an exception. *)
Lemma parse_cards_raise (u : pystr) (cards : list pystr) (acc : list product)
    (card : pystr) (e : exn) :
  card ∈ cards -> extract card = Raise e ->
  exists e', parse_cards u cards acc = Raise e'.
Proof.
  intros Hin He. revert acc.
  induction cards as [|c cards IH]; intros acc; [by apply elem_of_nil in Hin|].
  cbn [parse_cards].
  destruct (extract c) as [[r|]|e0] eqn:E; cbn [mbind result_bind].
  - destruct (split_on 47 u !! 2%nat) as [host|]; [|by eexists].
    apply elem_of_cons in Hin as [->|Hin]; [congruence|by apply IH].
  - apply elem_of_cons in Hin as [->|Hin]; [congruence|by apply IH].
  - by eexists.
Qed.

(** What the loop returns was built from cards with a price. *)
Lemma parse_cards_sound (u : pystr) (cards : list pystr) (acc ps : list product) :
  parse_cards u cards acc = Value ps ->
  exists l,
    ps = acc ++ l /\ (length l <= length cards)%nat
    /\ Forall (fun p => exists host card r,
                 card ∈ cards /\ extract card = Value (Some r)
                 /\ split_on 47 u !! 2%nat = Some host
                 /\ p = product_of u host card r) l.
Proof.
  revert acc ps. induction cards as [|c cards IH]; intros acc ps H.
  - injection H as <-. exists []. by rewrite app_nil_r.
  - cbn [parse_cards] in H.
    destruct (extract c) as [[r|]|e0] eqn:E; cbn [mbind result_bind] in H;
      [|apply IH in H as (l & -> & Hlen & Hl)|discriminate].
    + destruct (split_on 47 u !! 2%nat) as [host|] eqn:Eh; [|discriminate].
      apply IH in H as (l & -> & Hlen & Hl).
      exists (product_of u host c r :: l). rewrite <- app_assoc.
      split; [done|]. split; [simpl; lia|]. constructor.
      * exists host, c, r. repeat split; try done. apply elem_of_cons. by left.
      * eapply Forall_impl; [exact Hl|].
        intros p (h' & c' & r' & Hc' & ? & ? & ?). exists h', c', r'.
        repeat split; try done. apply elem_of_cons. by right.
    + exists l. split; [done|]. split; [simpl; lia|].
      eapply Forall_impl; [exact Hl|].
      intros p (h' & c' & r' & Hc' & ? & ? & ?). exists h', c', r'.
      repeat split; try done. apply elem_of_cons. by right.
Qed.

(** What [_fetch_one] returns was built from the first five cards of the
    page. *)
Lemma fetch_one_sound (w : world) (u term : pystr) :
  (length (_fetch_one w u term) <= 5)%nat
  /\ Forall (fun p => exists host card r,
               extract card = Value (Some r)
               /\ split_on 47 u !! 2%nat = Some host
               /\ p = product_of u host card r) (_fetch_one w u term).
Proof.
  unfold _fetch_one.
  destruct (scrape w u) as [html|e]; cbn [mbind result_bind];
    [|split; [simpl; lia|constructor]].
  destruct (select_cards w html) as [cards|e]; cbn [mbind result_bind];
    [|split; [simpl; lia|constructor]].
  destruct (parse_cards u (take 5 cards) []) as [ps|e] eqn:E;
    [|split; [simpl; lia|constructor]].
  apply parse_cards_sound in E as (l & -> & Hlen & Hl). cbn [app].
  split.
  - rewrite length_take in Hlen. lia.
  - eapply Forall_impl; [exact Hl|].
    intros p (h' & c' & r' & _ & ? & ? & ?). by exists h', c', r'.
Qed.

(** X4: a source gives at most five products; each carries the URL it was
    fetched from, the host of that URL (the third piece of the URL cut at
    its slashes) as website, a name of at most 100 characters, and the
    name of one of the four currencies. *)
Theorem fetch_one_products_bounded (w : world) (u term : pystr) :
  (length (_fetch_one w u term) <= 5)%nat
  /\ Forall (fun p =>
       url p = u
       /\ split_on 47 u !! 2%nat = Some (website p)
       /\ (length (name p) <= 100)%nat
       /\ exists c, original_currency p = currency_name c)
     (_fetch_one w u term).
Proof.
  destruct (fetch_one_sound w u term) as [Hlen Hps]. split; [done|].
  eapply Forall_impl; [exact Hps|].
  intros p (host & card & r & _ & Hhost & ->). cbn.
  repeat split; try done.
  - rewrite length_take. lia.
  - by eexists.
Qed.

(** X5: all or nothing. When [extract] raises on one of the first five
    cards of a page, the source contributes no product at all: the products
    of the cards before it are lost with it. *)
Theorem raising_card_empties_source (w : world) (u term html card : pystr)
    (cards : list pystr) (e : exn) :
  scrape w u = Value html ->
  select_cards w html = Value cards ->
  card ∈ take 5 cards ->
  extract card = Raise e ->
  _fetch_one w u term = [].
Proof.
  intros Hs Hc Hin He. unfold _fetch_one. rewrite Hs. cbn [mbind result_bind].
  rewrite Hc. cbn [mbind result_bind].
  by destruct (parse_cards_raise u (take 5 cards) [] card e Hin He) as [e' ->].
Qed.

Lemma raising_card_empties_source_witness :
  extract (cps "A54 15,000,000 " ++ toman_unit)
  = Value (Some (mkReading (float_of_Z 15000000) toman (float_of_Z 15000000)))
  /\ _fetch_one comma_world (cps "https://torob.ir/search/?query=A54") (cps "A54") = [].
Proof.
  split; [vm_compute; reflexivity|].
  apply (raising_card_empties_source comma_world _ _ torob_page
           (cps "A55 , " ++ toman_unit)
           [cps "A54 15,000,000 " ++ toman_unit; cps "A55 , " ++ toman_unit]
           ValueError).
  - reflexivity.
  - reflexivity.
  - apply elem_of_cons. right. apply elem_of_cons. by left.
  - vm_compute. reflexivity.
Defined.

(** X6: when the page is fetched and parsed, the URL has a host and no
    card among the first five makes [extract] raise, the products are those
    of the first five cards that have a price, in the order of the cards;
    the cards without a price and the cards after the fifth contribute
    nothing. *)
Theorem fetch_one_is_priced_cards (w : world) (u term html host : pystr)
    (cards : list pystr) :
  scrape w u = Value html ->
  select_cards w html = Value cards ->
  split_on 47 u !! 2%nat = Some host ->
  Forall (fun card => forall e, extract card <> Raise e) (take 5 cards) ->
  _fetch_one w u term = omap (card_product u host) (take 5 cards).
Proof.
  intros Hs Hc Hhost Hok. unfold _fetch_one. rewrite Hs. cbn [mbind result_bind].
  rewrite Hc. cbn [mbind result_bind].
  by rewrite (parse_cards_value u host _ [] Hhost Hok).
Qed.

Lemma fetch_one_is_priced_cards_witness :
  _fetch_one demo_world (cps "https://torob.ir/search/?query=A54") (cps "A54")
  = omap (card_product (cps "https://torob.ir/search/?query=A54") (cps "torob.ir"))
         (take 5 [cps "A54 15,000,000 " ++ toman_unit; cps "no price here"]).
Proof.
  apply (fetch_one_is_priced_cards demo_world _ _ torob_page).
  - reflexivity.
  - reflexivity.
  - reflexivity.
  - repeat constructor; intros e; vm_compute; discriminate.
Defined.

(* ===================================================================== *)
(** * Further properties: the search and its report *)
(* ===================================================================== *)

(** The hosts of the three URLs of a term, whatever the term. *)
Lemma urls_hosts (term : pystr) :
  map (fun u => split_on 47 u !! 2%nat) (urls term) = map Some source_hosts.
Proof.
  unfold urls, source_hosts.
  set (p1 := cps "https://torob.ir/search/?query="). vm_compute in p1. subst p1.
  set (p2 := cps "https://divar.ir/s/tehran?q="). vm_compute in p2. subst p2.
  set (p3 := cps "https://www.amazon.com/s?k="). vm_compute in p3. subst p3.
  set (h1 := cps "torob.ir"). vm_compute in h1. subst h1.
  set (h2 := cps "divar.ir"). vm_compute in h2. subst h2.
  set (h3 := cps "www.amazon.com"). vm_compute in h3. subst h3.
  generalize (replace_space (cps "%20") term) (replace_space (cps "+") term).
  intros q1 q2. cbn [map app]. repeat f_equal.
Qed.

Lemma urls_host_of (term u : pystr) :
  u ∈ urls term ->
  exists host, host ∈ source_hosts /\ split_on 47 u !! 2%nat = Some host.
Proof.
  intros Hu. apply list_elem_of_lookup in Hu as [i Hi].
  pose proof (urls_hosts term) as H.
  apply (f_equal (fun l => l !! i)) in H.
  change (map ?f ?l) with (f <$> l) in H. rewrite !list_lookup_fmap, Hi in H.
  destruct (source_hosts !! i) as [host|] eqn:E; [|discriminate].
  injection H as H. exists host. split; [|done].
  by eapply list_elem_of_lookup_2.
Qed.

Lemma fetch_one_products_bounded_aux (w : world) (u term : pystr) :
  (length (_fetch_one w u term) <= 5)%nat
  /\ Forall (fun p => url p = u /\ split_on 47 u !! 2%nat = Some (website p))
            (_fetch_one w u term).
Proof.
  destruct (fetch_one_sound w u term) as [Hlen Hps]. split; [done|].
  eapply Forall_impl; [exact Hps|].
  by intros p (host & card & r & _ & Hhost & ->).
Qed.

Lemma sum_Z_bound (l : list Z) (b : Z) :
  Forall (fun x => 0 <= x <= b) l -> 0 <= sum_Z l <= b * Z.of_nat (length l).
Proof.
  induction 1 as [|x l Hx _ IH]; simpl; [lia|]. lia.
Qed.

(** X7: a term has at most fifteen products; the website of each is one
    of torob.ir, divar.ir and www.amazon.com, the host of the URL of the
    term it was fetched from. The total of a report of N terms is at most
    15 N. *)
Theorem term_products_bounded (w : world) (terms : list pystr) (term : pystr) :
  (length (products (search_one w term)) <= 15)%nat
  /\ Forall (fun p => url p ∈ urls term /\ website p ∈ source_hosts
                      /\ split_on 47 (url p) !! 2%nat = Some (website p))
            (products (search_one w term))
  /\ 0 <= summary_total (build_report w terms) <= 15 * Z.of_nat (length terms).
Proof.
  split; [|split].
  - unfold search_one, gather, urls. cbn [products map concat].
    rewrite !length_app. cbn [length].
    pose proof (proj1 (fetch_one_sound w
      (cps "https://torob.ir/search/?query=" ++ replace_space (cps "%20") term) term)).
    pose proof (proj1 (fetch_one_sound w
      (cps "https://divar.ir/s/tehran?q=" ++ replace_space (cps "%20") term) term)).
    pose proof (proj1 (fetch_one_sound w
      (cps "https://www.amazon.com/s?k=" ++ replace_space (cps "+") term) term)).
    lia.
  - unfold search_one, gather. cbn [products].
    apply Forall_concat, Forall_map, Forall_forall. intros u Hu.
    destruct (urls_host_of term u Hu) as (host & Hhost & Hsplit).
    eapply Forall_impl; [apply (proj2 (fetch_one_products_bounded_aux w u term))|].
    intros p (Hurl & Hweb). subst u. rewrite Hsplit in Hweb. injection Hweb as <-.
    by repeat split.
  - unfold build_report. cbn [summary_total]. rewrite !map_map.
    pose proof (sum_Z_bound
      (map (fun t => Z.of_nat (length (products (search_one w t)))) terms) 15) as H.
    rewrite length_map in H. apply H. apply Forall_map, Forall_forall.
    intros t _. cbv beta delta [compose].
    assert ((length (products (search_one w t)) <= 15)%nat); [|lia].
    unfold search_one, gather, urls. cbn [products map concat].
    rewrite !length_app. cbn [length].
    pose proof (proj1 (fetch_one_sound w
      (cps "https://torob.ir/search/?query=" ++ replace_space (cps "%20") t) t)).
    pose proof (proj1 (fetch_one_sound w
      (cps "https://divar.ir/s/tehran?q=" ++ replace_space (cps "%20") t) t)).
    pose proof (proj1 (fetch_one_sound w
      (cps "https://www.amazon.com/s?k=" ++ replace_space (cps "+") t) t)).
    lia.
Qed.

Lemma replace_space_no_space (by_ s : pystr) :
  32 ∉ by_ -> 32 ∉ replace_space by_ s.
Proof.
  intros Hby. unfold replace_space. induction s as [|c s IH]; cbn [flat_map].
  - apply not_elem_of_nil.
  - rewrite elem_of_app. intros [H|H]; [|done].
    destruct (Z.eqb_spec c 32) as [->|Hc]; [done|].
    apply list_elem_of_singleton in H. congruence.
Qed.

Lemma replace_space_without_space (by_ s : pystr) :
  32 ∉ s -> replace_space by_ s = s.
Proof.
  unfold replace_space. induction s as [|c s IH]; intros H; cbn [flat_map]; [done|].
  rewrite not_elem_of_cons in H. destruct H as [Hc Hs].
  destruct (Z.eqb_spec c 32) as [->|_]; [done|]. cbn [app]. by rewrite IH.
Qed.

(** X8: no URL of a term holds a space, and the spaces are all that is
    rewritten: a term without spaces is appended to each prefix as it
    is. *)
Theorem urls_have_no_space (term : pystr) :
  Forall (fun u => 32 ∉ u) (urls term)
  /\ (32 ∉ term ->
      urls term = [cps "https://torob.ir/search/?query=" ++ term;
                   cps "https://divar.ir/s/tehran?q=" ++ term;
                   cps "https://www.amazon.com/s?k=" ++ term]).
Proof.
  split.
  - unfold urls. repeat constructor; rewrite elem_of_app; intros [H|H];
      try (revert H; apply replace_space_no_space; not_in_list);
      revert H; vm_compute; not_in_list.
  - intros H. unfold urls. by rewrite !replace_space_without_space.
Qed.

(** A reading's amount and price are zeros, positive numbers or
    infinity. *)
Lemma extract_reading_signless (text : pystr) (r : reading) :
  extract text = Value (Some r) -> signless (original r) /\ signless (rd_toman r).
Proof.
  unfold extract. rewrite extract_items_first_match.
  destruct (first_match patterns _) as [[c g]|] eqn:E; [|discriminate].
  destruct (first_match_in_table _ _ _ E) as (pats & pat & _ & _ & _ & Hdc & _).
  destruct (on_match_outcome c g Hdc) as [[_ ->]|(n & Hn & _ & Hv & ->)];
    [discriminate|].
  intros [= <-]. cbn [original rd_toman].
  pose proof (float_of_Z_signless n Hn) as Hsig.
  split; [done|by apply rates_positive].
Qed.

Lemma signless_not_nan (x : float) : signless x -> is_nan x = false.
Proof. by destruct x as [[]|[]| |[] m e]. Qed.

Lemma fetch_one_prices (w : world) (u term : pystr) :
  Forall (fun p => signless (price p)) (_fetch_one w u term).
Proof.
  eapply Forall_impl; [apply (proj2 (fetch_one_sound w u term))|].
  intros p (host & card & r & Hr & _ & ->). cbn [price product_of].
  by apply extract_reading_signless in Hr as [_ ?].
Qed.

Lemma series_min_in (x : float) (l : list float) : series_min (x :: l) ∈ x :: l.
Proof.
  cbn [series_min]. revert x. induction l as [|y l IH]; intros x; cbn [fold_left].
  - apply elem_of_cons. by left.
  - destruct (SFltb y x).
    + apply elem_of_cons. right. apply IH.
    + specialize (IH x). apply elem_of_cons in IH as [IH|IH].
      * rewrite IH. apply elem_of_cons. by left.
      * apply elem_of_cons. right. apply elem_of_cons. by right.
Qed.

Lemma series_max_in (x : float) (l : list float) : series_max (x :: l) ∈ x :: l.
Proof.
  cbn [series_max]. revert x. induction l as [|y l IH]; intros x; cbn [fold_left].
  - apply elem_of_cons. by left.
  - destruct (SFltb x y).
    + apply elem_of_cons. right. apply IH.
    + specialize (IH x). apply elem_of_cons in IH as [IH|IH].
      * rewrite IH. apply elem_of_cons. by left.
      * apply elem_of_cons. right. apply elem_of_cons. by right.
Qed.

Lemma filter_numeric_all (l : list float) :
  Forall (fun x => is_nan x = false) l -> filter (fun x => is_nan x = false) l = l.
Proof.
  induction 1 as [|x l Hx _ IH]; [done|].
  rewrite filter_cons, decide_True by done. by rewrite IH.
Qed.

(** The analysis of products whose prices are all numbers. *)
Lemma run_numeric (p : product) (ps : list product) :
  Forall (fun q => signless (price q)) (p :: ps) ->
  total (run (p :: ps)) = Z.of_nat (length (p :: ps))
  /\ exists lo hi,
       lo ∈ p :: ps /\ hi ∈ p :: ps
       /\ a_min (run (p :: ps)) = Some (price lo)
       /\ a_max (run (p :: ps)) = Some (price hi).
Proof.
  intros H. unfold run.
  rewrite filter_numeric_all.
  2:{ apply Forall_map. eapply Forall_impl; [exact H|].
      intros q Hq. by apply signless_not_nan. }
  cbn [total a_min a_max]. rewrite length_map. split; [done|].
  pose proof (series_min_in (price p) (map price ps)) as Hmin.
  pose proof (series_max_in (price p) (map price ps)) as Hmax.
  change (price p :: map price ps) with (map price (p :: ps)) in Hmin, Hmax.
  apply list_elem_of_fmap in Hmin as (lo & Hlo & Hin).
  apply list_elem_of_fmap in Hmax as (hi & Hhi & Hin').
  exists lo, hi. by rewrite Hlo, Hhi.
Qed.

(** X9: in a report no product is lost to the analysis: a price that
    [extract] returned is never NaN, so the analysis of each term counts
    every product of the term, and for a term with products the minimum
    and the maximum are prices of two of its products, both with
    [0 <= price]; a term without products has the analysis with the total
    alone. *)
Theorem report_analysis_counts_all (w : world) (terms : list pystr) :
  Forall (fun r =>
    total (tr_analysis r) = Z.of_nat (length (products r))
    /\ match products r with
       | [] => tr_analysis r = mkAnalysis 0 None None None None
       | _ :: _ =>
           exists lo hi,
             lo ∈ products r /\ hi ∈ products r
             /\ a_min (tr_analysis r) = Some (price lo)
             /\ a_max (tr_analysis r) = Some (price hi)
             /\ float_nonneg (price lo) = true /\ float_nonneg (price hi) = true
       end)
    (results (build_report w terms)).
Proof.
  unfold build_report. cbn [results]. apply Forall_map, Forall_forall.
  intros t _. cbv beta delta [compose]. unfold search_one, gather.
  cbn [products tr_analysis].
  set (ps := concat (map (fun u => _fetch_one w u t) (urls t))).
  assert (Hps : Forall (fun q => signless (price q)) ps).
  { apply Forall_concat, Forall_map, Forall_forall. intros u _.
    apply fetch_one_prices. }
  destruct ps as [|p ps']; [done|].
  destruct (run_numeric p ps' Hps) as (Htot & lo & hi & Hlo & Hhi & Hmin & Hmax).
  split; [done|]. exists lo, hi. repeat split; try done.
  - rewrite Forall_forall in Hps. by apply signless_nonneg, Hps.
  - rewrite Forall_forall in Hps. by apply signless_nonneg, Hps.
Qed.

Lemma length_filter_price (ps : list product) :
  length (filter (fun x => is_nan x = false) (map price ps))
  = length (filter (fun p => is_nan (price p) = false) ps).
Proof.
  induction ps as [|p ps IH]; [done|]. cbn [map]. rewrite !filter_cons.
  destruct (decide (is_nan (price p) = false)); simpl; by rewrite IH.
Qed.

Lemma filter_numeric_none (l : list float) :
  Forall (fun x => is_nan x = true) l -> filter (fun x => is_nan x = false) l = [].
Proof.
  induction 1 as [|x l Hx _ IH]; [done|].
  rewrite filter_cons, decide_False by congruence. done.
Qed.

(** X10: [run] counts the products whose price is a number; it leaves out
    the statistics only for the empty list. For a non-empty list whose
    prices are all NaN the check for emptiness has passed before [dropna]:
    the result has total 0 and the four statistics present, each NaN. *)
Theorem run_counts_numeric_prices (ps : list product) :
  total (run ps)
  = Z.of_nat (length (filter (fun p => is_nan (price p) = false) ps))
  /\ (a_min (run ps) = None <-> ps = [])
  /\ (ps <> [] -> Forall (fun p => is_nan (price p) = true) ps ->
      run ps = mkAnalysis 0 (Some S754_nan) (Some S754_nan)
                            (Some S754_nan) (Some S754_nan)).
Proof.
  destruct ps as [|p ps]; [by repeat split|].
  split; [|split].
  - unfold run. cbn [total]. by rewrite length_filter_price.
  - by split.
  - intros _ H. unfold run. rewrite filter_numeric_none; [reflexivity|].
    apply Forall_map. exact H.
Qed.

Lemma country_of_products (w : world) (t : pystr) :
  Forall from_iran (products (search_one w t)).
Proof.
  unfold search_one, gather. cbn [products].
  apply Forall_concat, Forall_map, Forall_forall. intros u _.
  by apply fetch_one_inv.
Qed.

(** X11: the rows handed to [to_excel] are, term by term in the order of
    the batch, the products found for that term, each filed under its own
    term: a row [(t, p)] is written exactly when [t] is a term of the batch
    and [p] one of the products of [t]; there are as many rows as the total
    of the report says, and each is a product of Iran. *)
Theorem save_excel_rows (w : world) (terms : list pystr) :
  let rows :=
    flat_map (fun t => map (fun p => (t, p)) (products (search_one w t))) terms in
  save_excel w (build_report w terms) = to_excel w rows
  /\ Z.of_nat (length rows) = summary_total (build_report w terms)
  /\ (forall t p, (t, p) ∈ rows <-> t ∈ terms /\ p ∈ products (search_one w t))
  /\ Forall (fun row => from_iran (snd row)) rows.
Proof.
  cbv zeta. split; [|split; [|split]].
  - unfold save_excel, build_report. cbn [results]. f_equal.
    induction terms as [|t terms IH]; [done|].
    cbn [map flat_map]. by rewrite IH.
  - unfold build_report. cbn [results summary_total].
    induction terms as [|t terms IH]; [done|].
    cbn [map flat_map sum_Z fold_right]. rewrite length_app, length_map.
    unfold sum_Z in IH. lia.
  - intros t p. rewrite list_elem_of_In, in_flat_map. split.
    + intros (t' & Ht' & Hin). apply in_map_iff in Hin as (p' & [= -> ->] & Hp).
      split; by apply list_elem_of_In.
    + intros [Ht Hp]. exists t. split; [by apply list_elem_of_In|].
      apply in_map_iff. exists p. split; [done|by apply list_elem_of_In].
  - apply Forall_flat_map, Forall_forall. intros t Ht.
    apply Forall_map. apply (country_of_products w t).
Qed.

(* ===================================================================== *)
(** * Further properties: the submission form *)
(* ===================================================================== *)

Lemma lstrip_split (s : pystr) :
  exists sp, s = sp ++ lstrip s /\ Forall (fun x => is_space x = true) sp.
Proof.
  induction s as [|c s (sp & Hs & Hsp)]; [by exists []|].
  cbn [lstrip]. destruct (is_space c) eqn:E.
  - exists (c :: sp). split; [by rewrite Hs at 1|by constructor].
  - by exists [].
Qed.

Lemma lstrip_clean (s : pystr) : clean_head (lstrip s).
Proof.
  induction s as [|c s IH]; [done|]. cbn [lstrip].
  by destruct (is_space c) eqn:E.
Qed.

Lemma lstrip_fixed (s : pystr) : clean_head s -> lstrip s = s.
Proof. destruct s as [|c s]; [done|]. cbn. by intros ->. Qed.

Lemma lstrip_blank (s : pystr) :
  Forall (fun x => is_space x = true) s -> lstrip s = [].
Proof. induction 1 as [|c s Hc _ IH]; [done|]. cbn [lstrip]. by rewrite Hc. Qed.

Lemma lstrip_nil (s : pystr) :
  lstrip s = [] -> Forall (fun x => is_space x = true) s.
Proof.
  intros H. destruct (lstrip_split s) as (sp & Hs & Hsp).
  rewrite H, app_nil_r in Hs. by subst.
Qed.

Lemma strip_blank (s : pystr) :
  Forall (fun x => is_space x = true) s -> strip s = [].
Proof. intros H. unfold strip. by rewrite (lstrip_blank s H). Qed.

(** Both ends of a stripped string are clean. *)
Lemma strip_clean (s : pystr) : clean_head (strip s) /\ clean_head (rev (strip s)).
Proof.
  unfold strip. rewrite rev_involutive. split; [|apply lstrip_clean].
  pose proof (lstrip_clean s) as Ha.
  destruct (lstrip_split (rev (lstrip s))) as (sp & Hs & Hsp).
  apply (f_equal (@rev Z)) in Hs. rewrite rev_involutive, rev_app_distr in Hs.
  destruct (rev (lstrip (rev (lstrip s)))) as [|x b]; [done|].
  rewrite Hs in Ha. exact Ha.
Qed.

Lemma strip_idempotent (s : pystr) : strip (strip s) = strip s.
Proof.
  destruct (strip_clean s) as [H1 H2]. unfold strip at 1.
  rewrite (lstrip_fixed _ H1), (lstrip_fixed _ H2). apply rev_involutive.
Qed.

Lemma lstrip_subset (s : pystr) (x : Z) : x ∈ lstrip s -> x ∈ s.
Proof.
  intros H. destruct (lstrip_split s) as (sp & Hs & _).
  rewrite Hs. apply elem_of_app. by right.
Qed.

Lemma elem_of_rev_iff (s : pystr) (x : Z) : x ∈ rev s <-> x ∈ s.
Proof. rewrite !list_elem_of_In. symmetry. apply in_rev. Qed.

Lemma strip_subset (s : pystr) (x : Z) : x ∈ strip s -> x ∈ s.
Proof.
  unfold strip. intros H. apply (proj1 (elem_of_rev_iff _ _)) in H.
  apply lstrip_subset in H. apply (proj1 (elem_of_rev_iff _ _)) in H.
  by apply lstrip_subset.
Qed.

(** A stripped string that starts clean and is not blank is not empty. *)
Lemma strip_keeps_head (c : Z) (s : pystr) :
  is_space c = false -> strip (c :: s) <> [].
Proof.
  intros Hc. unfold strip. cbn [lstrip]. rewrite Hc. intros H.
  apply (f_equal (@rev Z)) in H. rewrite rev_involutive in H. cbn [rev] in H.
  apply lstrip_nil in H. cbn [rev] in H.
  apply Forall_app in H as [_ H]. apply Forall_cons in H as [H _]. congruence.
Qed.

Lemma split_on_cons (sep : Z) (s : pystr) : exists w ws, split_on sep s = w :: ws.
Proof.
  induction s as [|c s (w & ws & IH)]; [by exists [], []|].
  cbn [split_on]. destruct (c =? sep); [by eexists _, _|].
  rewrite IH. by eexists _, _.
Qed.

Lemma split_on_no_sep (sep : Z) (s : pystr) :
  Forall (fun piece => sep ∉ piece) (split_on sep s).
Proof.
  induction s as [|c s IH]; cbn [split_on].
  - constructor; [apply not_elem_of_nil|constructor].
  - destruct (Z.eqb_spec c sep) as [->|Hc].
    + constructor; [apply not_elem_of_nil|done].
    + destruct (split_on sep s) as [|w ws].
      { constructor; [|constructor]. rewrite not_elem_of_cons.
        split; [congruence|apply not_elem_of_nil]. }
      apply Forall_cons in IH as [Hw Hws]. constructor; [|done].
      rewrite not_elem_of_cons. split; [congruence|done].
Qed.

(** The terms [index] makes of a field that is not blank. *)
Lemma terms_of_raw (c : Z) (raw : pystr) :
  is_space c = false ->
  let terms := take 10 (filter (fun t => t ≠ []) (map strip (split_on 10 (c :: raw)))) in
  (1 <= length terms <= 10)%nat
  /\ Forall (fun term => term <> [] /\ strip term = term /\ 10 ∉ term) terms.
Proof.
  intros Hc terms.
  assert (Hall : Forall (fun term => term <> [] /\ strip term = term /\ 10 ∉ term)
                   (filter (fun t => t ≠ []) (map strip (split_on 10 (c :: raw))))).
  { apply Forall_forall. intros t Ht. apply list_elem_of_filter in Ht as [Hne Ht].
    apply list_elem_of_fmap in Ht as (piece & -> & Hpiece).
    split; [done|]. split; [apply strip_idempotent|].
    intros H. apply strip_subset in H.
    pose proof (split_on_no_sep 10 (c :: raw)) as Hsep.
    rewrite Forall_forall in Hsep. by apply (Hsep piece). }
  split; [|by apply Forall_take].
  split; [|unfold terms; rewrite length_take; lia].
  assert (Hc10 : c ≠ 10) by (intros ->; discriminate).
  unfold terms. cbn [split_on]. rewrite (proj2 (Z.eqb_neq c 10) Hc10).
  destruct (split_on_cons 10 raw) as (w & ws & ->). cbn [map].
  rewrite filter_cons, decide_True by by apply strip_keeps_head.
  cbn [take length]. lia.
Qed.

(** X12: a submission whose field is missing, empty or made of whitespace
    only is turned away with a warning and sent back to the URL it was
    posted to ([redirect(request.url)]): the registry is left as it was and
    no thread is started, whatever the clock says. *)
Theorem blank_submission_is_refused (field : option pystr) (now : float)
    (results_store : store) :
  Forall (fun x => is_space x = true) (default [] field) ->
  index (POST field) now results_store
  = Value (RedirectSelf (cps "warning"), results_store, None).
Proof. intros H. unfold index. by rewrite (strip_blank _ H). Qed.

Lemma blank_submission_is_refused_witness :
  index (POST (Some (cps "  "))) quarter_past ∅
  = Value (RedirectSelf (cps "warning"), ∅, None).
Proof.
  apply blank_submission_is_refused. repeat constructor.
Defined.

(** X13: the terms a submission hands to its thread: at least one and at
    most ten, none of them empty, each without whitespace at its ends and
    without a line break. *)
Theorem submitted_terms_are_clean (field : option pystr) (now : float)
    (st st' : store) (r : response) (t : thread) :
  index (POST field) now st = Value (r, st', Some t) ->
  (1 <= length (th_terms t) <= 10)%nat
  /\ Forall (fun term => term <> [] /\ strip term = term /\ 10 ∉ term) (th_terms t).
Proof.
  unfold index. destruct (strip_clean (default [] field)) as [Hclean _].
  destruct (strip (default [] field)) as [|c raw] eqn:E; [discriminate|].
  destruct (py_int now) as [n|e]; cbn [mbind result_bind]; [|discriminate].
  intros [= <- <- <-]. cbn [th_terms]. by apply terms_of_raw.
Qed.

Lemma submitted_terms_are_clean_witness :
  (1 <= length [cps "laptop"; cps "phone x"] <= 10)%nat
  /\ Forall (fun term => term <> [] /\ strip term = term /\ 10 ∉ term)
            [cps "laptop"; cps "phone x"].
Proof.
  apply (submitted_terms_are_clean
           (Some ([32; 10] ++ cps "laptop " ++ [10; 10; 9] ++ cps "phone x" ++ [10]))
           quarter_past ∅
           (<[str_of_Z 1700000000 := mkEntry (cps "processing") None None]> ∅)
           (Redirect (cps "/result/" ++ str_of_Z 1700000000) (cps "info"))
           (mkThread [cps "laptop"; cps "phone x"] (str_of_Z 1700000000))).
  reflexivity.
Defined.

(* ===================================================================== *)
(** * Further properties: the registry over time *)
(* ===================================================================== *)

(** What the assignment that ends a thread writes. *)
Lemma run_in_thread_entry (w : world) (terms : list pystr) (task_id : pystr)
    (st : store) :
  exists e,
    run_in_thread w terms task_id st = <[task_id := e]> st
    /\ ((exists path, search w terms task_id = Value path
                      /\ e = mkEntry (cps "done") (Some path) None)
        \/ (exists err, search w terms task_id = Raise err
                        /\ e = mkEntry (cps "failed") None (Some (str_exn err)))).
Proof.
  unfold run_in_thread. destruct (search w terms task_id) as [path|err].
  - eexists. split; [done|]. left. by exists path.
  - eexists. split; [done|]. right. by exists err.
Qed.

Lemma submitted_terms_bounds (field : option pystr) (now : float)
    (st st' : store) (r : response) (t : thread) :
  index (POST field) now st = Value (r, st', Some t) ->
  (1 <= length (th_terms t) <= 10)%nat.
Proof.
  unfold index. destruct (strip_clean (default [] field)) as [Hclean _].
  destruct (strip (default [] field)) as [|c raw] eqn:E; [discriminate|].
  destruct (py_int now) as [n|e]; cbn [mbind result_bind]; [|discriminate].
  intros [= <- <- <-]. cbn [th_terms]. by apply terms_of_raw.
Qed.

(** The invariant of the transition system. *)
Lemma reachable_invariant (w : world) (sv : server) :
  reachable w sv ->
  map_Forall (fun _ e => entry_ok e) (registry sv)
  /\ Forall (fun t => is_Some (registry sv !! th_task_id t)
                      /\ (1 <= length (th_terms t) <= 10)%nat) (running sv)
  /\ (forall task_id e,
        registry sv !! task_id = Some e -> status e = cps "processing" ->
        exists t, t ∈ running sv /\ th_task_id t = task_id).
Proof.
  induction 1 as [|sv sv' _ (Hok & Hrun & Hproc) Hstep].
  - cbn [registry running]. split; [apply map_Forall_empty|]. split; [constructor|].
    intros task_id e H. by rewrite lookup_empty in H.
  - destruct Hstep as [field now sv r st' t Hidx|sv before after t Hsplit];
      cbn [registry running].
    + pose proof (submitted_terms_bounds _ _ _ _ _ _ Hidx) as Hterms.
      apply index_post_started in Hidx as (n & _ & Hid & ->).
      split; [|split].
      * apply map_Forall_insert_2; [by left|done].
      * constructor.
        -- rewrite Hid, lookup_insert_eq. split; [by eexists|done].
        -- eapply Forall_impl; [exact Hrun|]. intros t' [Hsome Hlen].
           split; [|done]. apply lookup_insert_is_Some'. by right.
      * intros task_id e Hlook Hst.
        destruct (decide (str_of_Z n = task_id)) as [<-|Hne].
        -- exists t. split; [apply elem_of_cons; by left|done].
        -- rewrite lookup_insert_ne in Hlook by done.
           destruct (Hproc _ _ Hlook Hst) as (t' & Ht' & Hid').
           exists t'. split; [apply elem_of_cons; by right|done].
    + destruct (run_in_thread_entry w (th_terms t) (th_task_id t) (registry sv))
        as (e0 & -> & He0).
      rewrite Hsplit in Hrun, Hproc.
      split; [|split].
      * apply map_Forall_insert_2; [|done].
        destruct He0 as [(path & _ & ->)|(err & _ & ->)];
          [right; left; by eexists|right; right; by eexists].
      * apply Forall_app in Hrun as [Hb Ha]. apply Forall_cons in Ha as [_ Ha].
        apply Forall_app. split; (eapply Forall_impl; [eassumption|]);
          intros t' [Hsome Hlen]; (split; [|done]);
          apply lookup_insert_is_Some'; by right.
      * intros task_id e Hlook Hst.
        destruct (decide (th_task_id t = task_id)) as [<-|Hne].
        -- rewrite lookup_insert_eq in Hlook. injection Hlook as <-.
           by destruct He0 as [(path & _ & ->)|(err & _ & ->)].
        -- rewrite lookup_insert_ne in Hlook by done.
           destruct (Hproc _ _ Hlook Hst) as (t' & Ht' & Hid').
           exists t'. split; [|done].
           rewrite elem_of_app, elem_of_cons in Ht'. rewrite elem_of_app.
           destruct Ht' as [?|[->|?]]; [by left|done|by right].
Qed.

(** X14: in every state the server can reach, every entry of the registry
    has one of three shapes (processing; done with a path; failed with a
    reason), every thread still running has its task registered and holds
    one to ten terms, and every task registered as processing has a thread
    still running for it. *)
Theorem reachable_registry_invariant (w : world) (sv : server) :
  reachable w sv ->
  map_Forall (fun _ e => entry_ok e) (registry sv)
  /\ Forall (fun t => is_Some (registry sv !! th_task_id t)
                      /\ (1 <= length (th_terms t) <= 10)%nat) (running sv)
  /\ (forall task_id e,
        registry sv !! task_id = Some e -> status e = cps "processing" ->
        exists t, t ∈ running sv /\ th_task_id t = task_id).
Proof. apply reachable_invariant. Qed.

Lemma one_submission_reachable (w : world) : reachable w one_submission.
Proof.
  eapply reachable_step; [apply reachable_start|].
  apply (step_submit w (Some (cps "laptop")) quarter_past (mkServer ∅ [])
           (Redirect (cps "/result/" ++ str_of_Z 1700000000) (cps "info"))).
  reflexivity.
Qed.

Lemma reachable_registry_invariant_witness :
  map_Forall (fun _ e => entry_ok e) (registry one_submission)
  /\ Forall (fun t => is_Some (registry one_submission !! th_task_id t)
                      /\ (1 <= length (th_terms t) <= 10)%nat)
            (running one_submission)
  /\ (forall task_id e,
        registry one_submission !! task_id = Some e ->
        status e = cps "processing" ->
        exists t, t ∈ running one_submission /\ th_task_id t = task_id).
Proof.
  apply (reachable_registry_invariant demo_world one_submission).
  apply one_submission_reachable.
Defined.

(** X15: in every state the server can reach, [api_download] sends a file
    only for a task recorded as done, the file of its entry, and only when
    that file exists; an unknown identifier gets "Not found" with 404, and
    a task that is processing or failed (or whose file is gone) gets "File
    not ready" with 202. *)
Theorem download_only_when_done (w : world) (sv : server)
    (path_exists : pystr -> bool) (task_id : pystr) :
  reachable w sv ->
  match api_download path_exists task_id (registry sv) with
  | SendFile path =>
      registry sv !! task_id = Some (mkEntry (cps "done") (Some path) None)
      /\ path_exists path = true
  | Text body code =>
      (registry sv !! task_id = None /\ body = cps "Not found" /\ code = 404)
      \/ (is_Some (registry sv !! task_id)
          /\ body = cps "File not ready" /\ code = 202)
  | Rendered _ _ _ => False
  end
  /\ (forall e, registry sv !! task_id = Some e -> status e <> cps "done" ->
      api_download path_exists task_id (registry sv) = Text (cps "File not ready") 202).
Proof.
  intros Hreach. destruct (reachable_invariant w sv Hreach) as (Hok & _ & _).
  unfold api_download. destruct (registry sv !! task_id) as [e|] eqn:E.
  - destruct (Hok _ _ E) as [->|[(path & ->)|(msg & ->)]]; cbn [excel_path].
    + split; [right; by repeat split|done].
    + split.
      * destruct (bool_decide (path ≠ []) && path_exists path) eqn:Eb.
        -- apply andb_true_iff in Eb as [_ Eb]. done.
        -- right. by repeat split.
      * intros e [= <-]. done.
    + split; [right; by repeat split|done].
  - split; [left; by repeat split|discriminate].
Qed.

Lemma download_only_when_done_witness :
  api_download (fun _ => true) (str_of_Z 1700000000) (registry one_submission)
  = Text (cps "File not ready") 202.
Proof.
  refine (proj2 (download_only_when_done demo_world one_submission (fun _ => true)
                   (str_of_Z 1700000000) (one_submission_reachable demo_world))
            (mkEntry (cps "processing") None None) _ _).
  - apply lookup_insert_eq.
  - discriminate.
Defined.

(** X16: in every state the server can reach, [result] answers a failed
    task with 500 and the error prefix followed by the recorded reason, and
    shows a page for no identifier at all: for one that is not registered
    (the waiting page) and for a task that is processing or done (the
    result page) the rendering raises [TemplateNotFound] for the parent
    "base.html" that both templates extend, so these requests end in 500
    as well. *)
Theorem result_page_by_entry (w : world) (sv : server) (task_id : pystr) :
  reachable w sv ->
  match registry sv !! task_id with
  | None =>
      result_route task_id (registry sv) = Raise (TemplateNotFound (cps "base.html"))
  | Some e =>
      (exists msg, e = mkEntry (cps "failed") None (Some msg)
                   /\ result_route task_id (registry sv)
                      = Value (Text (error_prefix ++ msg) 500))
      \/ ((status e = cps "processing" \/ status e = cps "done")
          /\ result_route task_id (registry sv)
             = Raise (TemplateNotFound (cps "base.html")))
  end.
Proof.
  intros Hreach. destruct (reachable_invariant w sv Hreach) as (Hok & _ & _).
  unfold result_route. destruct (registry sv !! task_id) as [e|] eqn:E; [|done].
  destruct (Hok _ _ E) as [->|[(path & ->)|(msg & ->)]]; cbn [status].
  - right. split; [by left|]. by rewrite decide_False by discriminate.
  - right. split; [by right|]. by rewrite decide_False by discriminate.
  - left. exists msg. split; [done|]. by rewrite decide_True by done.
Qed.

Lemma result_page_by_entry_witness :
  result_route (str_of_Z 1700000001) (registry one_submission)
  = Raise (TemplateNotFound (cps "base.html")).
Proof.
  pose proof (result_page_by_entry demo_world one_submission (str_of_Z 1700000001)
                (one_submission_reachable demo_world)) as H.
  cbn [registry one_submission] in H.
  rewrite lookup_insert_ne, lookup_empty in H by discriminate.
  exact H.
Defined.

(** X17: the life of a task. A submission that starts a thread redirects
    to the result route of the new identifier, which is registered at once:
    the route takes the branch of the result template (not of the waiting
    page), whose rendering raises [TemplateNotFound] for "base.html", and
    no file can be downloaded yet. When the thread ends, no other entry of
    the registry has changed; if the export returned a path the task is
    done, the download sends that file when it exists, and the result route
    still raises for the missing parent; if the export raised, the task is
    failed, the result route answers 500 with the text of the exception
    and the download stays "File not ready". *)
Theorem life_of_a_task (w : world) (path_exists : pystr -> bool)
    (field : option pystr) (now : float) (st st' : store) (r : response)
    (t : thread) :
  index (POST field) now st = Value (r, st', Some t) ->
  let task_id := th_task_id t in
  let st'' := run_in_thread w (th_terms t) task_id st' in
  r = Redirect (cps "/result/" ++ task_id) (cps "info")
  /\ st' !! task_id = Some (mkEntry (cps "processing") None None)
  /\ result_route task_id st' = Raise (TemplateNotFound (cps "base.html"))
  /\ api_download path_exists task_id st' = Text (cps "File not ready") 202
  /\ (forall other, other <> task_id -> st'' !! other = st !! other)
  /\ match save_excel w (build_report w (th_terms t)) with
     | Value path =>
         st'' !! task_id = Some (mkEntry (cps "done") (Some path) None)
         /\ result_route task_id st'' = Raise (TemplateNotFound (cps "base.html"))
         /\ api_download path_exists task_id st''
            = if bool_decide (path ≠ []) && path_exists path
              then SendFile path else Text (cps "File not ready") 202
     | Raise e =>
         st'' !! task_id = Some (mkEntry (cps "failed") None (Some (str_exn e)))
         /\ result_route task_id st'' = Value (Text (error_prefix ++ str_exn e) 500)
         /\ api_download path_exists task_id st'' = Text (cps "File not ready") 202
     end.
Proof.
  intros Hidx.
  assert (Hr : r = Redirect (cps "/result/" ++ th_task_id t) (cps "info")).
  { unfold index in Hidx. destruct (strip (default [] field)); [discriminate|].
    destruct (py_int now); cbn [mbind result_bind] in Hidx; [|discriminate].
    by injection Hidx as <- <- <-. }
  apply index_post_started in Hidx as (n & _ & Hid & ->).
  cbv zeta. rewrite Hid in *.
  split; [done|]. split; [|split; [|split; [|split]]].
  - apply lookup_insert_eq.
  - unfold result_route. rewrite lookup_insert_eq.
    by rewrite decide_False by discriminate.
  - unfold api_download. by rewrite lookup_insert_eq.
  - intros other Hother. unfold run_in_thread.
    assert (Hne : str_of_Z n ≠ other) by congruence.
    destruct (search w (th_terms t) (str_of_Z n));
      by rewrite !lookup_insert_ne by done.
  - unfold run_in_thread, search, result_route, api_download.
    destruct (save_excel w (build_report w (th_terms t))) as [path|e];
      rewrite !lookup_insert_eq; cbn [status excel_path reason_text reason].
    + by rewrite decide_False by discriminate.
    + by rewrite decide_True by done.
Qed.

Lemma life_of_a_task_witness :
  result_route (str_of_Z 1700000000) (registry one_submission)
  = Raise (TemplateNotFound (cps "base.html")).
Proof.
  refine (proj1 (proj2 (proj2 (life_of_a_task demo_world (fun _ => true)
    (Some (cps "laptop")) quarter_past ∅ (registry one_submission)
    (Redirect (cps "/result/" ++ str_of_Z 1700000000) (cps "info"))
    (mkThread [cps "laptop"] (str_of_Z 1700000000)) _)))).
  reflexivity.
Defined.
